(** * HorizontalDock: the horizontal-axis settings panel of OpenHantek6022

    A shallow embedding of [openhantek/src/docks/HorizontalDock.cpp].

    - [double] values are idealised as exact rationals ([Q]): comparisons,
      products, quotients and the decade of a number are exact, NaN and the
      infinities are not represented.
    - The Qt widgets the dock owns are modelled as records; their methods
      follow the behaviour Qt documents for [QDoubleSpinBox], [QComboBox],
      [QObject::blockSignals] and [QSignalBlocker].
    - The member functions of the dock are written in a small state and
      error monad over the dock's members; every assignment to the shared
      settings object, every widget call and every emitted signal is
      appended to a trace, so that the order of effects can be stated. *)

From Stdlib Require Import ZArith QArith Qpower List Sorted Bool Lia Lqa.
Import ListNotations.

Open Scope Q_scope.

(** ** Numbers *)

Module Double.

(** C++ [a < b]. *)
Definition dlt (a b : Q) : bool :=
  match a ?= b with Lt => true | _ => false end.

(** C++ [a <= b]. *)
Definition dle (a b : Q) : bool := Qle_bool a b.

(** C++ [bool( x )] for a double: true unless [x] is zero. *)
Definition to_bool (x : Q) : bool := negb (Qeq_bool x 0).

(** Qt: [qMin( a, b )] is [( a < b ) ? a : b]. *)
Definition qMin (a b : Q) : Q := if dlt a b then a else b.

(** Qt: [qMax( a, b )] is [( a < b ) ? b : a]. *)
Definition qMax (a b : Q) : Q := if dlt a b then b else a.

(** Number of decimal digits of [n], minus one: [floor( log10( n ) )] for an
    integer [n >= 1]. *)
Fixpoint ilog10_aux (fuel : nat) (n : Z) : Z :=
  match fuel with
  | O => 0%Z
  | S f => if (n <? 10)%Z then 0%Z else (1 + ilog10_aux f (n / 10))%Z
  end.

Definition ilog10 (n : Z) : Z := ilog10_aux (S (Z.to_nat (Z.log2 n))) n.

(** [floor( log10( x ) )] for a positive rational [x], as an exact value:
    the difference of the digit counts of numerator and denominator is the
    exponent, or one more than it.  The C library rounds the logarithm, so
    for a double just below a power of ten the code can get the next
    integer; nothing below relies on the value being exact. *)
Definition floor_log10 (x : Q) : Z :=
  let e0 := (ilog10 (Qnum x) - ilog10 (Zpos (Qden x)))%Z in
  if dle ((10 # 1) ^ e0) x then e0 else (e0 - 1)%Z.

(** [pow( 10, floor( log10( x ) ) )], as an exact value for a positive
    [x].  For [x = 0] the C library computes [pow( 10, -inf ) = 0].  For a
    negative [x] it computes NaN, which the rational model does not have:
    [0] stands in for it.  Both make the quotient [x / decade x] fail every
    comparison against the timebase steps (NaN in C++, [x / 0 = 0] here).
    In [setSamplerateSteps] the argument is [1.0 / last]: for a last step
    that is zero or negative the code computes an infinity or NaN, which
    has no counterpart here, so what is stated about that call is stated
    for a positive last step. *)
Definition decade (x : Q) : Q :=
  if dlt 0 x then (10 # 1) ^ floor_log10 x else 0.

End Double.
Import Double.

(** ** Qt widgets *)

(** Modelled from the spec: the class [SiSpinBox] ([sispinbox.h]) and its Qt
    base class [QDoubleSpinBox] are not part of the sources.  The spec calls
    it a spin-box bound to an acquisition parameter whose input is clamped;
    the record keeps the value, the range, the step list and the mode, and
    the flag of [QObject::blockSignals].  The range is handled the way the Qt
    documentation describes for [QDoubleSpinBox]: the value always lies in
    the range, and setting one limit moves the other one along if the range
    would become empty.  Rounding to the displayed number of decimals is not
    modelled. *)
Record SiSpinBox := mkSiSpinBox {
  sb_minimum : Q;
  sb_maximum : Q;
  sb_value : Q;
  sb_steps : list Q;
  sb_mode : Z;
  sb_blocked : bool
}.

(** [QAbstractSpinBoxPrivate::bound] without wrapping. *)
Definition sb_bound (mn mx v : Q) : Q :=
  let v1 := if dlt v mn then mn else v in
  if dlt mx v1 then mx else v1.

(** [QAbstractSpinBoxPrivate::setRange]: the maximum is never below the
    minimum, and the value is moved into the new range. *)
Definition sb_setRange (mn mx : Q) (sb : SiSpinBox) : SiSpinBox :=
  let mx' := if dlt mn mx then mx else mn in
  mkSiSpinBox mn mx' (sb_bound mn mx' (sb_value sb))
              (sb_steps sb) (sb_mode sb) (sb_blocked sb).

(** [QDoubleSpinBox::setMinimum]: the maximum is adjusted if necessary, so
    that the range remains valid. *)
Definition sb_setMinimum (m : Q) (sb : SiSpinBox) : SiSpinBox :=
  sb_setRange m (if dlt m (sb_maximum sb) then sb_maximum sb else m) sb.

(** [QDoubleSpinBox::setMaximum]: the minimum is adjusted if necessary, so
    that the range remains valid. *)
Definition sb_setMaximum (m : Q) (sb : SiSpinBox) : SiSpinBox :=
  sb_setRange (if dlt (sb_minimum sb) m then sb_minimum sb else m) m sb.

(** [QDoubleSpinBox::setValue]: the value given, moved into the range. *)
Definition sb_setValue (v : Q) (sb : SiSpinBox) : SiSpinBox :=
  mkSiSpinBox (sb_minimum sb) (sb_maximum sb)
              (sb_bound (sb_minimum sb) (sb_maximum sb) v)
              (sb_steps sb) (sb_mode sb) (sb_blocked sb).

(** [SiSpinBox::setSteps] and [SiSpinBox::setMode] store their argument. *)
Definition sb_setSteps (l : list Q) (sb : SiSpinBox) : SiSpinBox :=
  mkSiSpinBox (sb_minimum sb) (sb_maximum sb) (sb_value sb)
              l (sb_mode sb) (sb_blocked sb).

Definition sb_setMode (m : Z) (sb : SiSpinBox) : SiSpinBox :=
  mkSiSpinBox (sb_minimum sb) (sb_maximum sb) (sb_value sb)
              (sb_steps sb) m (sb_blocked sb).

(** [QObject::blockSignals]. *)
Definition sb_blockSignals (b : bool) (sb : SiSpinBox) : SiSpinBox :=
  mkSiSpinBox (sb_minimum sb) (sb_maximum sb) (sb_value sb)
              (sb_steps sb) (sb_mode sb) b.

(** The calls the dock makes on a spin box. *)
Inductive SpinCall :=
| setMinimum (m : Q)
| setMaximum (m : Q)
| setValue (v : Q)
| setSteps (l : list Q)
| setMode (m : Z).

Definition sb_apply (c : SpinCall) : SiSpinBox -> SiSpinBox :=
  match c with
  | setMinimum m => sb_setMinimum m
  | setMaximum m => sb_setMaximum m
  | setValue v => sb_setValue v
  | setSteps l => sb_setSteps l
  | setMode m => sb_setMode m
  end.

(** [valueChanged( double )] is sent when a call has changed the value and
    the signals of the widget are not blocked. *)
Definition sb_fires (old new : SiSpinBox) : bool :=
  negb (sb_blocked old) && negb (Qeq_bool (sb_value old) (sb_value new)).

(** [QComboBox]: the items (here: the display formats they stand for), the
    current index ([-1] when there is none) and the flag of
    [QObject::blockSignals]. *)
Record QComboBox := mkQComboBox {
  cb_items : list Z;
  cb_index : Z;
  cb_blocked : bool
}.

Definition QComboBox_new : QComboBox := mkQComboBox [] (-1) false.

(** [QComboBox::addItem]: the first item added becomes the current one. *)
Definition cb_addItem (f : Z) (cb : QComboBox) : QComboBox :=
  mkQComboBox (cb_items cb ++ [f])
              (match cb_items cb with [] => 0%Z | _ => cb_index cb end)
              (cb_blocked cb).

(** [QComboBox::setCurrentIndex]: an index that names no item clears the
    selection. *)
Definition cb_setCurrentIndex (i : Z) (cb : QComboBox) : QComboBox :=
  mkQComboBox (cb_items cb)
              (if (0 <=? i)%Z && (i <? Z.of_nat (length (cb_items cb)))%Z
               then i else (-1)%Z)
              (cb_blocked cb).

Definition cb_blockSignals (b : bool) (cb : QComboBox) : QComboBox :=
  mkQComboBox (cb_items cb) (cb_index cb) b.

Definition cb_fires (old new : QComboBox) : bool :=
  negb (cb_blocked old) && negb (cb_index old =? cb_index new)%Z.

(** ** The shared settings object and the dock *)

(** [scope->horizontal]: the fields of [DsoSettingsScope] the dock uses.  The
    display format is the integer value of a [Dso::GraphFormat]. *)
Record DsoSettingsScope := mkScope {
  samplerate : Q;
  timebase : Q;
  format : Z;
  calfreq : Q;
  maxTimebase : Q
}.

(** An assignment to a field of [scope->horizontal]. *)
Inductive Assign :=
| AssignSamplerate (v : Q)
| AssignTimebase (v : Q)
| AssignFormat (f : Z)
| AssignCalfreq (v : Q).

Definition assign (a : Assign) (s : DsoSettingsScope) : DsoSettingsScope :=
  match a with
  | AssignSamplerate v =>
      mkScope v (timebase s) (format s) (calfreq s) (maxTimebase s)
  | AssignTimebase v =>
      mkScope (samplerate s) v (format s) (calfreq s) (maxTimebase s)
  | AssignFormat f =>
      mkScope (samplerate s) (timebase s) f (calfreq s) (maxTimebase s)
  | AssignCalfreq v =>
      mkScope (samplerate s) (timebase s) (format s) v (maxTimebase s)
  end.

(** The signals of the dock. *)
Inductive Signal :=
| samplerateChanged (v : Q)
| timebaseChanged (v : Q)
| formatChanged (f : Z)
| calfreqChanged (v : Q).

(** The three spin boxes of the dock. *)
Inductive Spin := Samplerate | Timebase | Calfreq.

(** What the dock does to the world around it, in the order it does it. *)
Inductive Effect :=
| EAssign (a : Assign)
| ECall (w : Spin) (c : SpinCall)
| EIndex (i : Z)
| EEmit (s : Signal).

(** The members of [HorizontalDock].  [scope] is the object the member
    pointer refers to; [connected] tells whether the [connect] calls at the
    end of the constructor have been made. *)
Record HorizontalDock := mkDock {
  scope : DsoSettingsScope;
  samplerateSiSpinBox : SiSpinBox;
  timebaseSiSpinBox : SiSpinBox;
  calfreqSiSpinBox : SiSpinBox;
  formatComboBox : QComboBox;
  samplerateSteps : list Q;
  timebaseSteps : list Q;
  connected : bool;
  trace : list Effect
}.

Definition spin (w : Spin) (d : HorizontalDock) : SiSpinBox :=
  match w with
  | Samplerate => samplerateSiSpinBox d
  | Timebase => timebaseSiSpinBox d
  | Calfreq => calfreqSiSpinBox d
  end.

Definition set_spin (w : Spin) (sb : SiSpinBox) (d : HorizontalDock)
  : HorizontalDock :=
  match w with
  | Samplerate =>
      mkDock (scope d) sb (timebaseSiSpinBox d) (calfreqSiSpinBox d)
             (formatComboBox d) (samplerateSteps d) (timebaseSteps d)
             (connected d) (trace d)
  | Timebase =>
      mkDock (scope d) (samplerateSiSpinBox d) sb (calfreqSiSpinBox d)
             (formatComboBox d) (samplerateSteps d) (timebaseSteps d)
             (connected d) (trace d)
  | Calfreq =>
      mkDock (scope d) (samplerateSiSpinBox d) (timebaseSiSpinBox d) sb
             (formatComboBox d) (samplerateSteps d) (timebaseSteps d)
             (connected d) (trace d)
  end.

Definition set_scope (s : DsoSettingsScope) (d : HorizontalDock)
  : HorizontalDock :=
  mkDock s (samplerateSiSpinBox d) (timebaseSiSpinBox d) (calfreqSiSpinBox d)
         (formatComboBox d) (samplerateSteps d) (timebaseSteps d)
         (connected d) (trace d).

Definition set_formatComboBox (cb : QComboBox) (d : HorizontalDock)
  : HorizontalDock :=
  mkDock (scope d) (samplerateSiSpinBox d) (timebaseSiSpinBox d)
         (calfreqSiSpinBox d) cb (samplerateSteps d) (timebaseSteps d)
         (connected d) (trace d).

Definition set_samplerateSteps (l : list Q) (d : HorizontalDock)
  : HorizontalDock :=
  mkDock (scope d) (samplerateSiSpinBox d) (timebaseSiSpinBox d)
         (calfreqSiSpinBox d) (formatComboBox d) l (timebaseSteps d)
         (connected d) (trace d).

Definition set_timebaseSteps (l : list Q) (d : HorizontalDock)
  : HorizontalDock :=
  mkDock (scope d) (samplerateSiSpinBox d) (timebaseSiSpinBox d)
         (calfreqSiSpinBox d) (formatComboBox d) (samplerateSteps d) l
         (connected d) (trace d).

Definition set_connected (b : bool) (d : HorizontalDock) : HorizontalDock :=
  mkDock (scope d) (samplerateSiSpinBox d) (timebaseSiSpinBox d)
         (calfreqSiSpinBox d) (formatComboBox d) (samplerateSteps d)
         (timebaseSteps d) b (trace d).

Definition add_trace (e : Effect) (d : HorizontalDock) : HorizontalDock :=
  mkDock (scope d) (samplerateSiSpinBox d) (timebaseSiSpinBox d)
         (calfreqSiSpinBox d) (formatComboBox d) (samplerateSteps d)
         (timebaseSteps d) (connected d) (trace d ++ [e]).

(** ** The monad of member functions

    A member function takes the dock to a result and the updated dock, or to
    [None] where C++ leaves the behaviour undefined ([first()] and [last()]
    of an empty [QList]). *)

Definition M (A : Type) : Type := HorizontalDock -> option (A * HorizontalDock).

Definition ret {A} (a : A) : M A := fun d => Some (a, d).

Definition bind {A B} (m : M A) (k : A -> M B) : M B :=
  fun d => match m d with
           | Some (a, d') => k a d'
           | None => None
           end.

Declare Scope dock_scope.
Delimit Scope dock_scope with dock.
Notation "x <- m ;; k" := (bind m (fun x => k))
  (at level 61, m at next level, right associativity) : dock_scope.
Notation "m ;; k" := (bind m (fun _ => k))
  (at level 61, right associativity) : dock_scope.
Open Scope dock_scope.

Definition gets {A} (f : HorizontalDock -> A) : M A := fun d => Some (f d, d).

Definition modify (f : HorizontalDock -> HorizontalDock) : M unit :=
  fun d => Some (tt, f d).

Definition undefined {A} : M A := fun _ => None.

(** [l.first()] and [l.last()]. *)
Definition first (l : list Q) : M Q :=
  match l with
  | [] => undefined
  | x :: _ => ret x
  end.

Definition last (l : list Q) : M Q :=
  match rev l with
  | [] => undefined
  | x :: _ => ret x
  end.

(** [scope->horizontal.f = v]. *)
Definition scope_assign (a : Assign) : M unit :=
  modify (fun d => add_trace (EAssign a) (set_scope (assign a (scope d)) d)).

(** [emit s]. *)
Definition emit (s : Signal) : M unit := modify (add_trace (EEmit s)).

(** [QSignalBlocker] on a spin box: the constructor blocks the signals and
    remembers whether they were blocked before; the destructor (or a move
    assignment to the blocker) puts that state back. *)
Definition block (w : Spin) : M bool :=
  fun d => Some (sb_blocked (spin w d),
                 set_spin w (sb_blockSignals true (spin w d)) d).

Definition unblock (w : Spin) (prev : bool) : M unit :=
  modify (fun d => set_spin w (sb_blockSignals prev (spin w d)) d).

(** A call on a spin box.  The slot connected to [valueChanged] runs, with
    the new value, before the call returns. *)
Definition spin_call (w : Spin) (slot : Q -> M unit) (c : SpinCall) : M unit :=
  fun d =>
    let old := spin w d in
    let new := sb_apply c old in
    let d' := add_trace (ECall w c) (set_spin w new d) in
    if connected d && sb_fires old new then slot (sb_value new) d'
    else Some (tt, d').

(** ** The member functions of [HorizontalDock] *)

Section Members.

(** The least and the greatest value of the enumeration [Dso::GraphFormat],
    which is declared in a header that is not part of the sources. *)
Variables TY XY : Z.

(** A spin box as the constructor of [SiSpinBox] leaves it. *)
Variable SiSpinBox_new : SiSpinBox.

(** [Dso::GraphFormatEnum]: the display formats from [TY] to [XY]. *)
Definition GraphFormatEnum : list Z :=
  map (fun k => (TY + Z.of_nat k)%Z) (seq 0 (Z.to_nat (XY - TY + 1))).

(** *** Slots without widget calls *)

Definition samplerateSelected (v : Q) : M unit :=
  scope_assign (AssignSamplerate v) ;;
  emit (samplerateChanged v).

Definition formatSelected (index : Z) : M unit :=
  scope_assign (AssignFormat index) ;;
  f <- gets (fun d => format (scope d)) ;;
  emit (formatChanged f).

Definition calfreqSelected (v : Q) : M unit :=
  scope_assign (AssignCalfreq v) ;;
  emit (calfreqChanged v).

(** *** The samplerate limits *)

Definition samplerate_call : SpinCall -> M unit :=
  spin_call Samplerate samplerateSelected.

Definition when (b : bool) (m : M unit) : M unit := if b then m else ret tt.

Definition setSamplerateLimits (minimum maximum : Q) : M unit :=
  blocker <- block Samplerate ;;
  when (to_bool minimum) (samplerate_call (setMinimum minimum)) ;;
  when (to_bool maximum) (samplerate_call (setMaximum maximum)) ;;
  unblock Samplerate blocker.

(** One round of the loop of [calculateSamplerateSteps]: [mm] is the pair
    of [min] and [max]. *)
Definition calc_step (steps : list Q) (t : Q) (mm : Q * Q) (id : nat)
  : Q * Q :=
  let size := length steps in
  let sRate := nth id steps 0 in
  let min := if (id <? size - 1)%nat && dle (sRate * t) (10 # 1)
             then sRate else fst mm in
  let max := if negb (id =? 0)%nat && dle (sRate * t) (1000 # 1)
             then sRate else snd mm in
  (min, max).

(** The loop of [calculateSamplerateSteps], for [id] from [0] to [size - 1]. *)
Definition calc_loop (steps : list Q) (t : Q) : Q * Q :=
  fold_left (calc_step steps t) (seq 0 (length steps))
            (nth 0 steps 0, nth 0 steps 0).

(** The limits handed to [setSamplerateLimits]. *)
Definition calc_limits (steps : list Q) (t : Q) : Q * Q :=
  let (min, max) := calc_loop steps t in
  (qMax min (qMin (10000 # 1) max), max).

Definition calculateSamplerateSteps (t : Q) : M unit :=
  steps <- gets samplerateSteps ;;
  if (length steps =? 0)%nat then ret tt
  else let (min, max) := calc_limits steps t in
       setSamplerateLimits min max.

(** *** The timebase slot *)

Definition timebaseSelected (t : Q) : M unit :=
  scope_assign (AssignTimebase t) ;;
  calculateSamplerateSteps t ;;
  emit (timebaseChanged t).

Definition timebase_call : SpinCall -> M unit :=
  spin_call Timebase timebaseSelected.

Definition calfreq_call : SpinCall -> M unit :=
  spin_call Calfreq calfreqSelected.

(** [formatComboBox->setCurrentIndex( i )]; the slot connected to
    [currentIndexChanged] runs before the call returns. *)
Definition format_setCurrentIndex (i : Z) : M unit :=
  fun d =>
    let old := formatComboBox d in
    let new := cb_setCurrentIndex i old in
    let d' := add_trace (EIndex i) (set_formatComboBox new d) in
    if connected d && cb_fires old new then formatSelected (cb_index new) d'
    else Some (tt, d').

Definition format_block : M bool :=
  fun d => Some (cb_blocked (formatComboBox d),
                 set_formatComboBox
                   (cb_blockSignals true (formatComboBox d)) d).

Definition format_unblock (prev : bool) : M unit :=
  modify (fun d => set_formatComboBox
                     (cb_blockSignals prev (formatComboBox d)) d).

(** *** The setters *)

Definition setSamplerate (v : Q) : M Q :=
  blocker <- block Timebase ;;
  mt <- gets (fun d => maxTimebase (scope d)) ;;
  timebase_call (setMaximum mt) ;;
  (* blocker = QSignalBlocker( samplerateSiSpinBox ) *)
  blocker' <- block Samplerate ;;
  unblock Timebase blocker ;;
  samplerate_call (setValue v) ;;
  r <- gets (fun d => sb_value (samplerateSiSpinBox d)) ;;
  unblock Samplerate blocker' ;;
  ret r.

(** The quotient [vNorm] of [setTimebase]. *)
Definition vNorm (t : Q) : Q := t / decade t.

(** The loop of [setTimebase]: the first [i] below [size - 1] with
    [steps.at( i ) <= v && v < steps.at( i + 1 )], if there is one. *)
Definition find_step (steps : list Q) (v : Q) : option nat :=
  find (fun i => dle (nth i steps 0) v && dlt v (nth (i + 1) steps 0))
       (seq 0 (length steps - 1)).

Definition setTimebase (t : Q) : M Q :=
  blocker <- block Timebase ;;
  steps <- gets timebaseSteps ;;
  match find_step steps (vNorm t) with
  | Some i => timebase_call (setValue (decade t * nth i steps 0))
  | None => ret tt
  end ;;
  calculateSamplerateSteps t ;;
  r <- gets (fun d => sb_value (timebaseSiSpinBox d)) ;;
  unblock Timebase blocker ;;
  ret r.

Definition setFormat (f : Z) : M Z :=
  blocker <- format_block ;;
  if (TY <=? f)%Z && (f <=? XY)%Z then
    format_setCurrentIndex f ;;
    format_unblock blocker ;;
    ret f
  else
    format_unblock blocker ;;
    ret (-1)%Z.

Definition setCalfreq (v : Q) : M Q :=
  blocker <- block Calfreq ;;
  calfreq_call (setValue v) ;;
  r <- gets (fun d => sb_value (calfreqSiSpinBox d)) ;;
  unblock Calfreq blocker ;;
  ret r.

Definition setSamplerateSteps (mode : Z) (steps : list Q) : M unit :=
  modify (set_samplerateSteps steps) ;;
  samplerateBlocker <- block Samplerate ;;
  samplerate_call (setMode mode) ;;
  samplerate_call (setSteps steps) ;;
  lo <- first steps ;;
  samplerate_call (setMinimum lo) ;;
  hi <- last steps ;;
  samplerate_call (setMaximum hi) ;;
  timebaseBlocker <- block Timebase ;;
  hi' <- last steps ;;
  timebase_call (setMinimum (decade (1 / hi'))) ;;
  v <- gets (fun d => sb_value (timebaseSiSpinBox d)) ;;
  calculateSamplerateSteps v ;;
  unblock Timebase timebaseBlocker ;;
  unblock Samplerate samplerateBlocker.

(** The argument of [loadSettings] is a pointer: to the settings object the
    dock itself refers to, or to another one. *)
Inductive ScopeRef := This | Other (s : DsoSettingsScope).

Definition deref (r : ScopeRef) : M DsoSettingsScope :=
  match r with
  | This => gets scope
  | Other s => ret s
  end.

Definition loadSettings (r : ScopeRef) : M unit :=
  s1 <- deref r ;; setSamplerate (samplerate s1) ;;
  s2 <- deref r ;; setTimebase (timebase s2) ;;
  s3 <- deref r ;; setFormat (format s3) ;;
  s4 <- deref r ;; setCalfreq (calfreq s4) ;;
  ret tt.

(** *** The constructor *)

(** The members before the body of the constructor runs. *)
Definition members_init (s : DsoSettingsScope) : HorizontalDock :=
  mkDock s SiSpinBox_new SiSpinBox_new SiSpinBox_new QComboBox_new
         [] [] false [].

Definition constructor_body (calfreqSteps : list Q) : M unit :=
  samplerate_call (setMinimum 1) ;;
  samplerate_call (setMaximum (100000000 # 1)) ;;
  modify (fun d => set_timebaseSteps
                     (timebaseSteps d ++ [1; 2 # 1; 5 # 1; 10 # 1]) d) ;;
  ts <- gets timebaseSteps ;;
  timebase_call (setSteps ts) ;;
  timebase_call (setMinimum (1 # 1000000000)) ;;
  timebase_call (setMaximum (1000 # 1)) ;;
  modify (fun d => set_formatComboBox
                     (fold_left (fun cb f => cb_addItem f cb)
                                GraphFormatEnum (formatComboBox d)) d) ;;
  calfreq_call (setSteps calfreqSteps) ;;
  lo <- first calfreqSteps ;;
  calfreq_call (setMinimum lo) ;;
  hi <- last calfreqSteps ;;
  calfreq_call (setMaximum hi) ;;
  loadSettings This ;;
  modify (set_connected true).

Definition constructor (s : DsoSettingsScope) (calfreqSteps : list Q)
  : option HorizontalDock :=
  match constructor_body calfreqSteps (members_init s) with
  | Some (_, d) => Some d
  | None => None
  end.

End Members.

(** ** Auxiliary definitions for the statements *)

(** A spin-box call made under a [QSignalBlocker] of that spin box. *)
Definition blocked_call (w : Spin) (c : SpinCall) (d : HorizontalDock)
  : HorizontalDock :=
  add_trace (ECall w c) (set_spin w (sb_apply c (spin w d)) d).

(** The net effect of [setSamplerateLimits] on the samplerate spin box and on
    the trace. *)
Definition limits_sb (minimum maximum : Q) (sb : SiSpinBox) : SiSpinBox :=
  let sb1 := if to_bool minimum then sb_setMinimum minimum sb else sb in
  if to_bool maximum then sb_setMaximum maximum sb1 else sb1.

Definition limits_calls (minimum maximum : Q) : list Effect :=
  (if to_bool minimum then [ECall Samplerate (setMinimum minimum)] else [])
  ++ (if to_bool maximum then [ECall Samplerate (setMaximum maximum)] else []).

Definition with_limits (minimum maximum : Q) (d : HorizontalDock)
  : HorizontalDock :=
  mkDock (scope d) (limits_sb minimum maximum (samplerateSiSpinBox d))
         (timebaseSiSpinBox d) (calfreqSiSpinBox d) (formatComboBox d)
         (samplerateSteps d) (timebaseSteps d) (connected d)
         (trace d ++ limits_calls minimum maximum).

(** The signals among the effects, in the order they were emitted. *)
Fixpoint signals_of (es : list Effect) : list Signal :=
  match es with
  | [] => []
  | EEmit s :: es' => s :: signals_of es'
  | _ :: es' => signals_of es'
  end.

(** The assignments to the settings object among the effects. *)
Fixpoint assigns_of (es : list Effect) : list Assign :=
  match es with
  | [] => []
  | EAssign a :: es' => a :: assigns_of es'
  | _ :: es' => assigns_of es'
  end.

Definition emitted (d : HorizontalDock) : list Signal := signals_of (trace d).

(** Effects that are calls on the widgets of the dock only: no assignment to
    the settings object, no signal of the dock. *)
Definition widget_only (es : list Effect) : Prop :=
  assigns_of es = [] /\ signals_of es = [].

(** The effects of [calculateSamplerateSteps]. *)
Definition calc_calls (steps : list Q) (t : Q) : list Effect :=
  match steps with
  | [] => []
  | _ => limits_calls (fst (calc_limits steps t)) (snd (calc_limits steps t))
  end.

(** The dock after [calculateSamplerateSteps]. *)
Definition after_calc (t : Q) (d : HorizontalDock) : HorizontalDock :=
  match samplerateSteps d with
  | [] => d
  | _ => with_limits (fst (calc_limits (samplerateSteps d) t))
                     (snd (calc_limits (samplerateSteps d) t)) d
  end.

(** The timebase spin box after the loop of [setTimebase]. *)
Definition stepped (steps : list Q) (t : Q) (sb : SiSpinBox) : SiSpinBox :=
  match find_step steps (vNorm t) with
  | Some i => sb_setValue (decade t * nth i steps 0) sb
  | None => sb
  end.

Definition stepped_calls (steps : list Q) (t : Q) : list Effect :=
  match find_step steps (vNorm t) with
  | Some i => [ECall Timebase (setValue (decade t * nth i steps 0))]
  | None => []
  end.

(** The dock after the calls [setSamplerateSteps] makes on the two spin
    boxes, before it recalculates the samplerate limits. *)
Definition with_steps (mode : Z) (steps : list Q) (d : HorizontalDock)
  : HorizontalDock :=
  let lo := hd 0 steps in
  let hi := List.last steps 0 in
  mkDock (scope d)
         (sb_setMaximum hi
            (sb_setMinimum lo
               (sb_setSteps steps
                  (sb_setMode mode (samplerateSiSpinBox d)))))
         (sb_setMinimum (decade (1 / hi)) (timebaseSiSpinBox d))
         (calfreqSiSpinBox d) (formatComboBox d)
         steps (timebaseSteps d) (connected d)
         (trace d ++ [ECall Samplerate (setMode mode);
                      ECall Samplerate (setSteps steps);
                      ECall Samplerate (setMinimum lo);
                      ECall Samplerate (setMaximum hi);
                      ECall Timebase (setMinimum (decade (1 / hi)))]).

(** The step list the constructor stores in [timebaseSteps]. *)
Definition steps_1_2_5_10 : list Q := [1; 2 # 1; 5 # 1; 10 # 1].

(** A member function that returns, leaves the settings object as it is
    and emits no signal of the dock: all it does is call widgets. *)
Definition quiet {A} (m : M A) : Prop :=
  forall d, exists r d' es,
    m d = Some (r, d')
    /\ scope d' = scope d
    /\ trace d' = trace d ++ es
    /\ widget_only es.


(** The tests of the loop of [calculateSamplerateSteps]. *)
Definition min_test (steps : list Q) (t : Q) (id : nat) : bool :=
  (id <? length steps - 1)%nat && dle (nth id steps 0 * t) (10 # 1).

Definition max_test (steps : list Q) (t : Q) (id : nat) : bool :=
  negb (id =? 0)%nat && dle (nth id steps 0 * t) (1000 # 1).

(** A loop that keeps the step at the last index that passes a test. *)
Definition scan (steps : list Q) (p : nat -> bool) (ids : list nat) (init : Q)
  : Q :=
  fold_left (fun acc id => if p id then nth id steps 0 else acc) ids init.

(** [r] is the largest step of [steps] that satisfies [ok] (a condition on
    the index and the step), or the first step if none does. *)
Definition largest_step_where (steps : list Q) (ok : nat -> Q -> Prop) (r : Q)
  : Prop :=
  (exists i, (i < length steps)%nat
             /\ r = nth i steps 0
             /\ ok i r
             /\ forall j, (j < length steps)%nat ->
                          ok j (nth j steps 0) -> nth j steps 0 <= r)
  \/ ((forall j, (j < length steps)%nat -> ~ ok j (nth j steps 0))
      /\ r = nth 0 steps 0).

(** ** Sample values *)

Module Sample.

Definition TY : Z := 0.
Definition XY : Z := 1.

Definition spin_new : SiSpinBox :=
  mkSiSpinBox (1 # 1000000000000) (1000000000000 # 1) 1
              [1; 2 # 1; 5 # 1; 10 # 1] 0 false.

Definition settings : DsoSettingsScope :=
  mkScope (1000000 # 1) (1 # 1000) 0 (1000 # 1) (1 # 10).

Definition calfreqSteps : list Q := [50 # 1; 60 # 1; 100 # 1; 1000 # 1].

(** The dock the constructor builds from the sample values. *)
Definition dock : HorizontalDock :=
  Eval vm_compute in
    match constructor TY XY spin_new settings calfreqSteps with
    | Some d => d
    | None => members_init spin_new settings
    end.

Definition rates : list Q :=
  [100 # 1; 1000 # 1; 10000 # 1; 100000 # 1; 1000000 # 1].

End Sample.

(** ** Further definitions for the statements *)

(** Every step is a positive number, as samplerates are. *)
Definition all_positive (steps : list Q) : Prop :=
  Forall (fun s => 0 < s) steps.

(** The value [setTimebase] hands to the timebase spin box for the timebase
    [t], if its loop finds a step. *)
Definition grid_value (t : Q) : option Q :=
  match find_step steps_1_2_5_10 (vNorm t) with
  | Some i => Some (decade t * nth i steps_1_2_5_10 0)
  | None => None
  end.

(** The flags that decide whether a change of a widget runs a slot: the
    [blockSignals] flags of the four widgets and whether the slots are
    connected. *)
Definition signal_flags (d : HorizontalDock)
  : bool * bool * bool * bool * bool :=
  (sb_blocked (samplerateSiSpinBox d), sb_blocked (timebaseSiSpinBox d),
   sb_blocked (calfreqSiSpinBox d), cb_blocked (formatComboBox d),
   connected d).

(** A member function that leaves these flags as it found them. *)
Definition keeps_flags {A} (m : M A) : Prop :=
  forall d r d', m d = Some (r, d') -> signal_flags d' = signal_flags d.

(** * Properties *)

(** ** Comparisons *)

Lemma dlt_iff (a b : Q) : dlt a b = true <-> a < b.
Proof.
  unfold dlt. rewrite Qlt_alt. destruct (a ?= b); intuition congruence.
Qed.

Lemma dlt_false_iff (a b : Q) : dlt a b = false <-> b <= a.
Proof.
  unfold dlt.
  destruct (a ?= b) eqn:E; split; intro H; try reflexivity; try discriminate.
  - apply Qeq_alt in E. rewrite E. apply Qle_refl.
  - apply Qlt_alt in E. exfalso. apply (Qlt_irrefl a).
    apply Qlt_le_trans with b; assumption.
  - apply Qgt_alt in E. apply Qlt_le_weak. exact E.
Qed.

Lemma dle_iff (a b : Q) : dle a b = true <-> a <= b.
Proof. apply Qle_bool_iff. Qed.

Lemma dle_false_iff (a b : Q) : dle a b = false <-> b < a.
Proof.
  unfold dle. split; intro H.
  - apply Qnot_le_lt. intro L. apply Qle_bool_iff in L. congruence.
  - destruct (Qle_bool a b) eqn:E; [|reflexivity].
    apply Qle_bool_iff in E. exfalso. apply (Qlt_irrefl a).
    apply Qle_lt_trans with b; assumption.
Qed.

Lemma to_bool_false_iff (x : Q) : to_bool x = false <-> x == 0.
Proof.
  unfold to_bool. rewrite negb_false_iff. apply Qeq_bool_iff.
Qed.

Lemma to_bool_true_iff (x : Q) : to_bool x = true <-> ~ x == 0.
Proof.
  unfold to_bool. rewrite negb_true_iff. split; intro H.
  - intro E. apply Qeq_bool_iff in E. congruence.
  - destruct (Qeq_bool x 0) eqn:E; [|reflexivity].
    apply Qeq_bool_iff in E. contradiction.
Qed.

Lemma qMin_le_r (a b : Q) : qMin a b <= b.
Proof.
  unfold qMin. destruct (dlt a b) eqn:E.
  - apply dlt_iff in E. apply Qlt_le_weak. exact E.
  - apply Qle_refl.
Qed.

Lemma qMax_lub (a b c : Q) : a <= c -> b <= c -> qMax a b <= c.
Proof. unfold qMax. destruct (dlt a b); auto. Qed.

(** ** Calls on a blocked widget run no slot *)

Lemma spin_call_blocked (w : Spin) (slot : Q -> M unit) (c : SpinCall)
      (d : HorizontalDock) :
  sb_blocked (spin w d) = true ->
  spin_call w slot c d
  = Some (tt, add_trace (ECall w c) (set_spin w (sb_apply c (spin w d)) d)).
Proof.
  intro H. unfold spin_call, sb_fires. rewrite H. simpl.
  rewrite andb_false_r. reflexivity.
Qed.

Lemma sb_apply_blocked (c : SpinCall) (sb : SiSpinBox) :
  sb_blocked (sb_apply c sb) = sb_blocked sb.
Proof. destruct c; reflexivity. Qed.

Lemma sb_apply_blockSignals (c : SpinCall) (b : bool) (sb : SiSpinBox) :
  sb_apply c (sb_blockSignals b sb) = sb_blockSignals b (sb_apply c sb).
Proof. destruct c; reflexivity. Qed.

Lemma sb_blockSignals_twice (b b' : bool) (sb : SiSpinBox) :
  sb_blockSignals b (sb_blockSignals b' sb) = sb_blockSignals b sb.
Proof. reflexivity. Qed.

Lemma sb_blockSignals_same (sb : SiSpinBox) :
  sb_blockSignals (sb_blocked sb) sb = sb.
Proof. destruct sb; reflexivity. Qed.

Lemma setSamplerateLimits_eq (minimum maximum : Q) (d : HorizontalDock) :
  setSamplerateLimits minimum maximum d
  = Some (tt, with_limits minimum maximum d).
Proof.
  unfold setSamplerateLimits, with_limits, limits_sb, limits_calls, when,
    samplerate_call, bind, block, unblock, modify, ret.
  destruct d as [sc sr tb cf fc ss ts cn tr], sr as [mn mx v st md bl].
  cbn [spin samplerateSiSpinBox sb_blocked].
  destruct (to_bool minimum), (to_bool maximum);
    repeat (rewrite spin_call_blocked by reflexivity);
    cbn; rewrite <- ?app_assoc, ?app_nil_r; reflexivity.
Qed.

Lemma calculateSamplerateSteps_eq (t : Q) (d : HorizontalDock) :
  calculateSamplerateSteps t d
  = Some (tt, match samplerateSteps d with
              | [] => d
              | _ => with_limits (fst (calc_limits (samplerateSteps d) t))
                                 (snd (calc_limits (samplerateSteps d) t)) d
              end).
Proof.
  unfold calculateSamplerateSteps, bind, gets.
  destruct (samplerateSteps d) as [|s l] eqn:E; [reflexivity|].
  cbn [length Nat.eqb].
  destruct (calc_limits (s :: l) t) as [mn mx].
  rewrite setSamplerateLimits_eq. reflexivity.
Qed.

Lemma signals_of_app (es es' : list Effect) :
  signals_of (es ++ es') = signals_of es ++ signals_of es'.
Proof.
  induction es as [|e es IH]; [reflexivity|].
  destruct e; simpl; rewrite IH; reflexivity.
Qed.

Lemma assigns_of_app (es es' : list Effect) :
  assigns_of (es ++ es') = assigns_of es ++ assigns_of es'.
Proof.
  induction es as [|e es IH]; [reflexivity|].
  destruct e; simpl; rewrite IH; reflexivity.
Qed.

Lemma widget_only_nil : widget_only [].
Proof. split; reflexivity. Qed.

Lemma widget_only_app (es es' : list Effect) :
  widget_only es -> widget_only es' -> widget_only (es ++ es').
Proof.
  intros [A S] [A' S']. split.
  - rewrite assigns_of_app, A, A'. reflexivity.
  - rewrite signals_of_app, S, S'. reflexivity.
Qed.

Lemma widget_only_call (w : Spin) (c : SpinCall) : widget_only [ECall w c].
Proof. split; reflexivity. Qed.

Lemma widget_only_index (i : Z) : widget_only [EIndex i].
Proof. split; reflexivity. Qed.

Lemma limits_calls_widget_only (minimum maximum : Q) :
  widget_only (limits_calls minimum maximum).
Proof.
  unfold limits_calls.
  destruct (to_bool minimum), (to_bool maximum); split; reflexivity.
Qed.

Lemma calc_calls_widget_only (steps : list Q) (t : Q) :
  widget_only (calc_calls steps t).
Proof.
  destruct steps; [apply widget_only_nil | apply limits_calls_widget_only].
Qed.

(** [calculateSamplerateSteps] touches the samplerate spin box and the trace
    only, and what it appends to the trace are calls on that spin box. *)
Lemma calculateSamplerateSteps_frame (t : Q) (d : HorizontalDock) :
  exists d',
    calculateSamplerateSteps t d = Some (tt, d')
    /\ scope d' = scope d
    /\ timebaseSiSpinBox d' = timebaseSiSpinBox d
    /\ calfreqSiSpinBox d' = calfreqSiSpinBox d
    /\ formatComboBox d' = formatComboBox d
    /\ samplerateSteps d' = samplerateSteps d
    /\ timebaseSteps d' = timebaseSteps d
    /\ connected d' = connected d
    /\ sb_blocked (samplerateSiSpinBox d') = sb_blocked (samplerateSiSpinBox d)
    /\ trace d' = trace d ++ calc_calls (samplerateSteps d) t.
Proof.
  rewrite calculateSamplerateSteps_eq. eexists. split; [reflexivity|].
  unfold calc_calls.
  destruct (samplerateSteps d) eqn:E.
  - rewrite app_nil_r. repeat split; assumption || reflexivity.
  - cbn. repeat split; try assumption; try reflexivity.
    unfold limits_sb.
    destruct (to_bool _), (to_bool _); reflexivity.
Qed.

Lemma setTimebase_eq (t : Q) (d : HorizontalDock) :
  setTimebase t d
  = Some (sb_value (stepped (timebaseSteps d) t (timebaseSiSpinBox d)),
          after_calc t
            (mkDock (scope d) (samplerateSiSpinBox d)
                    (stepped (timebaseSteps d) t (timebaseSiSpinBox d))
                    (calfreqSiSpinBox d) (formatComboBox d)
                    (samplerateSteps d) (timebaseSteps d) (connected d)
                    (trace d ++ stepped_calls (timebaseSteps d) t))).
Proof.
  unfold setTimebase, stepped, stepped_calls, bind, block, unblock, modify,
    gets, ret, timebase_call.
  destruct d as [sc sr tb cf fc ss ts cn tr], tb as [mn mx v st md bl].
  cbn [spin timebaseSiSpinBox timebaseSteps set_spin sb_blockSignals
       sb_minimum sb_maximum sb_value sb_steps sb_mode sb_blocked].
  destruct (find_step ts (vNorm t)) as [i|].
  - rewrite spin_call_blocked by reflexivity.
    rewrite calculateSamplerateSteps_eq.
    unfold after_calc. cbn. destruct ss; reflexivity.
  - rewrite calculateSamplerateSteps_eq.
    unfold after_calc. cbn. rewrite app_nil_r. destruct ss; reflexivity.
Qed.

Lemma after_calc_timebaseSiSpinBox (t : Q) (d : HorizontalDock) :
  timebaseSiSpinBox (after_calc t d) = timebaseSiSpinBox d.
Proof. unfold after_calc. destruct (samplerateSteps d); reflexivity. Qed.

Lemma after_calc_scope (t : Q) (d : HorizontalDock) :
  scope (after_calc t d) = scope d.
Proof. unfold after_calc. destruct (samplerateSteps d); reflexivity. Qed.

Lemma after_calc_trace (t : Q) (d : HorizontalDock) :
  trace (after_calc t d) = trace d ++ calc_calls (samplerateSteps d) t.
Proof.
  unfold after_calc, calc_calls.
  destruct (samplerateSteps d); [rewrite app_nil_r|]; reflexivity.
Qed.

Lemma after_calc_timebaseSteps (t : Q) (d : HorizontalDock) :
  timebaseSteps (after_calc t d) = timebaseSteps d.
Proof. unfold after_calc. destruct (samplerateSteps d); reflexivity. Qed.

(** ** The timebase steps *)

Lemma decade_positive (t : Q) :
  0 < t -> decade t = (10 # 1) ^ floor_log10 t.
Proof. intro H. unfold decade. apply dlt_iff in H. rewrite H. reflexivity. Qed.

Lemma find_step_1_2_5_10 (v : Q) :
  1 <= v -> v < 10 # 1 ->
  exists i,
    find_step steps_1_2_5_10 v = Some i
    /\ In (nth i steps_1_2_5_10 0) [1; 2 # 1; 5 # 1]
    /\ nth i steps_1_2_5_10 0 <= v
    /\ forall s, In s [1; 2 # 1; 5 # 1] -> s <= v ->
                 s <= nth i steps_1_2_5_10 0.
Proof.
  intros L U. unfold find_step, steps_1_2_5_10.
  cbn [length Nat.sub seq find nth Nat.add].
  assert (E1 : dle 1 v = true) by (apply dle_iff; exact L).
  rewrite E1. cbn [andb].
  destruct (dlt v (2 # 1)) eqn:E2.
  { exists 0%nat. apply dlt_iff in E2. cbn [nth In].
    repeat split; auto.
    intros s [<-|[<-|[<-|[]]]] Hs; lra. }
  apply dlt_false_iff in E2.
  assert (E2' : dle (2 # 1) v = true) by (apply dle_iff; exact E2).
  rewrite E2'. cbn [andb].
  destruct (dlt v (5 # 1)) eqn:E5.
  { exists 1%nat. apply dlt_iff in E5. cbn [nth In].
    repeat split; auto.
    intros s [<-|[<-|[<-|[]]]] Hs; lra. }
  apply dlt_false_iff in E5.
  assert (E5' : dle (5 # 1) v = true) by (apply dle_iff; exact E5).
  rewrite E5'. cbn [andb].
  assert (E10 : dlt v (10 # 1) = true) by (apply dlt_iff; exact U).
  rewrite E10.
  exists 2%nat. cbn [nth In].
  repeat split; auto.
  intros s [<-|[<-|[<-|[]]]] Hs; lra.
Qed.

(** C1.  For a positive timebase [t] whose mantissa
    [vNorm = t / 10^floor(log10 t)] lies in [[1, 10)], [setTimebase t] sets
    the value of the timebase spin box to [10^floor(log10 t)] times the
    largest of the steps 1, 2 and 5 that is not above [vNorm], and returns
    the value the spin box then has. *)
Theorem setTimebase_clamps_to_step_grid (d : HorizontalDock) (t : Q) :
  timebaseSteps d = steps_1_2_5_10 ->
  0 < t ->
  1 <= t / (10 # 1) ^ floor_log10 t ->
  t / (10 # 1) ^ floor_log10 t < 10 # 1 ->
  exists step d',
    In step [1; 2 # 1; 5 # 1]
    /\ step <= t / (10 # 1) ^ floor_log10 t
    /\ (forall s, In s [1; 2 # 1; 5 # 1] ->
                  s <= t / (10 # 1) ^ floor_log10 t -> s <= step)
    /\ setTimebase t d = Some (sb_value (timebaseSiSpinBox d'), d')
    /\ timebaseSiSpinBox d'
       = sb_setValue ((10 # 1) ^ floor_log10 t * step) (timebaseSiSpinBox d).
Proof.
  intros Hsteps Hpos L U.
  rewrite <- (decade_positive t Hpos) in *.
  destruct (find_step_1_2_5_10 (vNorm t) L U) as (i & Hf & Hin & Hle & Hmax).
  rewrite setTimebase_eq.
  exists (nth i steps_1_2_5_10 0).
  match goal with |- context [after_calc t ?x] => exists (after_calc t x) end.
  split; [exact Hin|]. split; [exact Hle|]. split; [exact Hmax|].
  rewrite after_calc_timebaseSiSpinBox.
  cbn [timebaseSiSpinBox]. unfold stepped. rewrite Hsteps, Hf.
  split; reflexivity.
Qed.

(** ** The slots *)

Lemma samplerateSelected_eq (v : Q) (d : HorizontalDock) :
  samplerateSelected v d
  = Some (tt, add_trace (EEmit (samplerateChanged v))
                (add_trace (EAssign (AssignSamplerate v))
                   (set_scope (assign (AssignSamplerate v) (scope d)) d))).
Proof. reflexivity. Qed.

Lemma calfreqSelected_eq (v : Q) (d : HorizontalDock) :
  calfreqSelected v d
  = Some (tt, add_trace (EEmit (calfreqChanged v))
                (add_trace (EAssign (AssignCalfreq v))
                   (set_scope (assign (AssignCalfreq v) (scope d)) d))).
Proof. reflexivity. Qed.

Lemma formatSelected_eq (i : Z) (d : HorizontalDock) :
  formatSelected i d
  = Some (tt, add_trace (EEmit (formatChanged i))
                (add_trace (EAssign (AssignFormat i))
                   (set_scope (assign (AssignFormat i) (scope d)) d))).
Proof. reflexivity. Qed.

Lemma timebaseSelected_eq (t : Q) (d : HorizontalDock) :
  timebaseSelected t d
  = Some (tt, add_trace (EEmit (timebaseChanged t))
                (after_calc t
                   (add_trace (EAssign (AssignTimebase t))
                      (set_scope (assign (AssignTimebase t) (scope d)) d)))).
Proof.
  unfold timebaseSelected, bind, scope_assign, modify, emit.
  rewrite calculateSamplerateSteps_eq. reflexivity.
Qed.

(** C3.  Each slot stores the edited value in its field of the shared
    settings object and emits the matching signal with that value:
    [samplerateSelected], [timebaseSelected], [formatSelected] (the index,
    converted to a display format) and [calfreqSelected]. *)
Theorem slots_store_and_notify (d : HorizontalDock) :
  (forall v, exists d',
      samplerateSelected v d = Some (tt, d')
      /\ scope d' = assign (AssignSamplerate v) (scope d)
      /\ samplerate (scope d') = v
      /\ emitted d' = emitted d ++ [samplerateChanged v])
  /\ (forall t, exists d',
      timebaseSelected t d = Some (tt, d')
      /\ scope d' = assign (AssignTimebase t) (scope d)
      /\ timebase (scope d') = t
      /\ emitted d' = emitted d ++ [timebaseChanged t])
  /\ (forall i, exists d',
      formatSelected i d = Some (tt, d')
      /\ scope d' = assign (AssignFormat i) (scope d)
      /\ format (scope d') = i
      /\ emitted d' = emitted d ++ [formatChanged i])
  /\ (forall f, exists d',
      calfreqSelected f d = Some (tt, d')
      /\ scope d' = assign (AssignCalfreq f) (scope d)
      /\ calfreq (scope d') = f
      /\ emitted d' = emitted d ++ [calfreqChanged f]).
Proof.
  unfold emitted. repeat split.
  - intro v. rewrite samplerateSelected_eq. eexists. split; [reflexivity|].
    cbn. rewrite <- app_assoc, signals_of_app. repeat split; reflexivity.
  - intro t. rewrite timebaseSelected_eq. eexists. split; [reflexivity|].
    cbn [add_trace scope trace]. rewrite after_calc_scope, after_calc_trace.
    cbn. rewrite !signals_of_app.
    destruct (calc_calls_widget_only (samplerateSteps d) t) as [_ ->].
    cbn. rewrite <- !app_assoc. cbn. repeat split; reflexivity.
  - intro i. rewrite formatSelected_eq. eexists. split; [reflexivity|].
    cbn. rewrite <- app_assoc, signals_of_app. repeat split; reflexivity.
  - intro f. rewrite calfreqSelected_eq. eexists. split; [reflexivity|].
    cbn. rewrite <- app_assoc, signals_of_app. repeat split; reflexivity.
Qed.

(** C5.  [timebaseSelected t] first assigns [t] to
    [scope->horizontal.timebase], then recalculates the samplerate limits
    from [t], and only then emits [timebaseChanged t]: the recalculation
    runs on the dock with the field already written, and the signal is the
    last entry of the trace, after the calls of the recalculation. *)
Theorem timebaseSelected_order (t : Q) (d : HorizontalDock) :
  exists d1 d2 d3,
    scope_assign (AssignTimebase t) d = Some (tt, d1)
    /\ timebase (scope d1) = t
    /\ calculateSamplerateSteps t d1 = Some (tt, d2)
    /\ emit (timebaseChanged t) d2 = Some (tt, d3)
    /\ timebaseSelected t d = Some (tt, d3)
    /\ trace d1 = trace d ++ [EAssign (AssignTimebase t)]
    /\ trace d2 = trace d1 ++ calc_calls (samplerateSteps d) t
    /\ widget_only (calc_calls (samplerateSteps d) t)
    /\ trace d3 = trace d2 ++ [EEmit (timebaseChanged t)]
    /\ trace d3 = trace d ++ [EAssign (AssignTimebase t)]
                          ++ calc_calls (samplerateSteps d) t
                          ++ [EEmit (timebaseChanged t)].
Proof.
  rewrite timebaseSelected_eq.
  set (d1 := add_trace (EAssign (AssignTimebase t))
              (set_scope (assign (AssignTimebase t) (scope d)) d)).
  exists d1, (after_calc t d1),
    (add_trace (EEmit (timebaseChanged t)) (after_calc t d1)).
  split; [reflexivity|]. split; [reflexivity|].
  split; [apply calculateSamplerateSteps_eq|].
  split; [reflexivity|]. split; [reflexivity|].
  split; [reflexivity|].
  split; [rewrite after_calc_trace; reflexivity|].
  split; [apply calc_calls_widget_only|].
  split; [reflexivity|].
  cbn [add_trace trace]. rewrite after_calc_trace. cbn.
  rewrite <- !app_assoc. reflexivity.
Qed.

(** ** The setters *)

Lemma setSamplerate_eq (v : Q) (d : HorizontalDock) :
  setSamplerate v d
  = Some (sb_value (sb_setValue v (samplerateSiSpinBox d)),
          mkDock (scope d) (sb_setValue v (samplerateSiSpinBox d))
                 (sb_setMaximum (maxTimebase (scope d)) (timebaseSiSpinBox d))
                 (calfreqSiSpinBox d) (formatComboBox d)
                 (samplerateSteps d) (timebaseSteps d) (connected d)
                 (trace d ++ [ECall Timebase
                                    (setMaximum (maxTimebase (scope d)));
                              ECall Samplerate (setValue v)])).
Proof.
  unfold setSamplerate, bind, block, unblock, modify, gets, ret,
    timebase_call, samplerate_call.
  destruct d as [sc sr tb cf fc ss ts cn tr], tb as [mn mx x st md bl],
    sr as [mn' mx' x' st' md' bl'].
  cbn [spin timebaseSiSpinBox samplerateSiSpinBox set_spin sb_blockSignals
       scope sb_minimum sb_maximum sb_value sb_steps sb_mode sb_blocked].
  rewrite spin_call_blocked by reflexivity.
  cbn [spin timebaseSiSpinBox samplerateSiSpinBox set_spin sb_blockSignals
       add_trace scope sb_minimum sb_maximum sb_value sb_steps sb_mode
       sb_blocked calfreqSiSpinBox formatComboBox samplerateSteps
       timebaseSteps connected trace].
  rewrite spin_call_blocked by reflexivity.
  cbn. rewrite <- app_assoc. reflexivity.
Qed.

Lemma setCalfreq_eq (v : Q) (d : HorizontalDock) :
  setCalfreq v d
  = Some (sb_value (sb_setValue v (calfreqSiSpinBox d)),
          mkDock (scope d) (samplerateSiSpinBox d) (timebaseSiSpinBox d)
                 (sb_setValue v (calfreqSiSpinBox d)) (formatComboBox d)
                 (samplerateSteps d) (timebaseSteps d) (connected d)
                 (trace d ++ [ECall Calfreq (setValue v)])).
Proof.
  unfold setCalfreq, bind, block, unblock, modify, gets, ret, calfreq_call.
  destruct d as [sc sr tb cf fc ss ts cn tr], cf as [mn mx x st md bl].
  cbn [spin calfreqSiSpinBox set_spin sb_blockSignals
       sb_minimum sb_maximum sb_value sb_steps sb_mode sb_blocked].
  rewrite spin_call_blocked by reflexivity.
  reflexivity.
Qed.

Lemma setFormat_eq (TY XY f : Z) (d : HorizontalDock) :
  setFormat TY XY f d
  = if (TY <=? f)%Z && (f <=? XY)%Z
    then Some (f, mkDock (scope d) (samplerateSiSpinBox d)
                         (timebaseSiSpinBox d) (calfreqSiSpinBox d)
                         (cb_setCurrentIndex f (formatComboBox d))
                         (samplerateSteps d) (timebaseSteps d) (connected d)
                         (trace d ++ [EIndex f]))
    else Some ((-1)%Z, d).
Proof.
  unfold setFormat, bind, format_block, format_unblock, modify, ret,
    format_setCurrentIndex, cb_fires.
  destruct d as [sc sr tb cf fc ss ts cn tr], fc as [it ix bl].
  destruct ((TY <=? f)%Z && (f <=? XY)%Z); cbn.
  - rewrite andb_false_r. reflexivity.
  - reflexivity.
Qed.

(** ** The constructor *)

Lemma first_eq (l : list Q) : l <> [] -> first l = ret (hd 0 l).
Proof. destruct l; [congruence|reflexivity]. Qed.

Lemma last_eq (l : list Q) : l <> [] -> last l = ret (List.last l 0).
Proof.
  intro H. unfold last. destruct (rev l) as [|x r] eqn:E.
  - exfalso. apply H. rewrite <- (rev_involutive l), E. reflexivity.
  - rewrite <- (rev_involutive l), E. cbn [rev]. rewrite last_last. reflexivity.
Qed.

Lemma spin_call_unconnected (w : Spin) (slot : Q -> M unit) (c : SpinCall)
      (d : HorizontalDock) :
  connected d = false ->
  spin_call w slot c d = Some (tt, blocked_call w c d).
Proof. intro H. unfold spin_call. rewrite H. reflexivity. Qed.

(** Runs the members of the dock up to the next setter. *)
Ltac run_members :=
  cbn -[setSamplerate setTimebase setFormat setCalfreq sb_setMinimum
        sb_setMaximum sb_setSteps sb_setValue GraphFormatEnum List.last hd
        stepped stepped_calls].

Lemma constructor_calfreq (TY XY : Z) (new : SiSpinBox)
      (s : DsoSettingsScope) (cs : list Q) :
  cs <> [] ->
  exists d,
    constructor TY XY new s cs = Some d
    /\ calfreqSiSpinBox d
       = sb_setValue (calfreq s)
           (sb_setMaximum (List.last cs 0)
              (sb_setMinimum (hd 0 cs) (sb_setSteps cs new)))
    /\ timebaseSteps d = steps_1_2_5_10
    /\ samplerateSteps d = []
    /\ scope d = s
    /\ connected d = true.
Proof.
  intro H.
  unfold constructor, constructor_body, loadSettings, samplerate_call,
    timebase_call, calfreq_call.
  rewrite (first_eq cs H), (last_eq cs H).
  unfold bind, gets, ret, modify, deref.
  run_members. rewrite setSamplerate_eq.
  run_members. rewrite setTimebase_eq.
  run_members. unfold after_calc. cbn [samplerateSteps].
  run_members. rewrite setFormat_eq.
  destruct ((TY <=? format s)%Z && (format s <=? XY)%Z);
    run_members; rewrite setCalfreq_eq;
    eexists; (split; [reflexivity|]); repeat split; reflexivity.
Qed.

(** ** The range of a spin box *)

Lemma sb_setMinimum_minimum (m : Q) (sb : SiSpinBox) :
  sb_minimum (sb_setMinimum m sb) = m.
Proof. reflexivity. Qed.

Lemma sb_setMinimum_maximum (m : Q) (sb : SiSpinBox) :
  sb_maximum (sb_setMinimum m sb)
  = if dlt m (sb_maximum sb) then sb_maximum sb else m.
Proof.
  unfold sb_setMinimum, sb_setRange. cbn [sb_maximum].
  destruct (dlt m (sb_maximum sb)) eqn:E; [rewrite E; reflexivity|].
  destruct (dlt m m); reflexivity.
Qed.

Lemma sb_setMaximum_maximum (m : Q) (sb : SiSpinBox) :
  sb_maximum (sb_setMaximum m sb) = m.
Proof.
  unfold sb_setMaximum, sb_setRange. cbn [sb_maximum].
  destruct (dlt (sb_minimum sb) m) eqn:E; [rewrite E; reflexivity|].
  destruct (dlt m m); reflexivity.
Qed.

Lemma sb_setMaximum_minimum (m : Q) (sb : SiSpinBox) :
  sb_minimum (sb_setMaximum m sb)
  = if dlt (sb_minimum sb) m then sb_minimum sb else m.
Proof. reflexivity. Qed.

Lemma sb_setMaximum_minimum_keeps (m : Q) (sb : SiSpinBox) :
  sb_minimum sb <= m -> sb_minimum (sb_setMaximum m sb) == sb_minimum sb.
Proof.
  intro H. rewrite sb_setMaximum_minimum.
  destruct (dlt (sb_minimum sb) m) eqn:E; [reflexivity|].
  apply dlt_false_iff in E. apply Qle_antisym; assumption.
Qed.

Lemma sb_setMinimum_maximum_keeps (m : Q) (sb : SiSpinBox) :
  m <= sb_maximum sb -> sb_maximum (sb_setMinimum m sb) == sb_maximum sb.
Proof.
  intro H. rewrite sb_setMinimum_maximum.
  destruct (dlt m (sb_maximum sb)) eqn:E; [reflexivity|].
  apply dlt_false_iff in E. apply Qle_antisym; assumption.
Qed.

(** The value a spin box takes lies in its range, and is the value given
    when that lies in the range. *)
Lemma sb_bound_in_range (mn mx v : Q) :
  mn <= mx -> mn <= sb_bound mn mx v <= mx.
Proof.
  intro H. unfold sb_bound.
  destruct (dlt v mn) eqn:E1.
  - destruct (dlt mx mn) eqn:E2.
    + apply dlt_iff in E2. exfalso. apply (Qlt_irrefl mx).
      apply Qlt_le_trans with mn; assumption.
    + split; [apply Qle_refl | exact H].
  - apply dlt_false_iff in E1.
    destruct (dlt mx v) eqn:E2.
    + split; [exact H | apply Qle_refl].
    + apply dlt_false_iff in E2. split; assumption.
Qed.

Lemma sb_bound_id (mn mx v : Q) :
  mn <= v -> v <= mx -> sb_bound mn mx v = v.
Proof.
  intros L U. unfold sb_bound.
  assert (E1 : dlt v mn = false) by (apply dlt_false_iff; exact L).
  rewrite E1.
  assert (E2 : dlt mx v = false) by (apply dlt_false_iff; exact U).
  rewrite E2. reflexivity.
Qed.

Lemma sample_dock_constructed :
  constructor Sample.TY Sample.XY Sample.spin_new Sample.settings
              Sample.calfreqSteps
  = Some Sample.dock.
Proof. vm_compute. reflexivity. Qed.

(** A call on a spin box whose signals are not blocked does run the slot:
    setting the timebase spin box of the sample dock to 2 ms, as a user edit
    does, writes the settings object and emits [timebaseChanged]. *)
Lemma unblocked_call_runs_slot :
  exists d',
    timebase_call (setValue (2 # 1000)) Sample.dock = Some (tt, d')
    /\ timebase (scope d') = 2 # 1000
    /\ emitted d' = [timebaseChanged (2 # 1000)].
Proof. eexists. split; [vm_compute; reflexivity|]. split; reflexivity. Qed.

(** ** The setters and the settings object *)

Lemma quiet_bind {A B} (m : M A) (k : A -> M B) :
  quiet m -> (forall a, quiet (k a)) -> quiet (bind m k).
Proof.
  intros Hm Hk d.
  destruct (Hm d) as (a & d1 & es1 & E1 & S1 & T1 & W1).
  destruct (Hk a d1) as (b & d2 & es2 & E2 & S2 & T2 & W2).
  exists b, d2, (es1 ++ es2). unfold bind. rewrite E1, E2.
  split; [reflexivity|]. split; [congruence|].
  split; [rewrite T2, T1, app_assoc; reflexivity|].
  apply widget_only_app; assumption.
Qed.

Lemma quiet_ret {A} (a : A) : quiet (ret a).
Proof.
  intro d. exists a, d, []. rewrite app_nil_r.
  repeat split; reflexivity.
Qed.

Lemma quiet_deref (r : ScopeRef) : quiet (deref r).
Proof.
  intro d. destruct r as [|s].
  - exists (scope d), d, []. rewrite app_nil_r. repeat split; reflexivity.
  - exists s, d, []. rewrite app_nil_r. repeat split; reflexivity.
Qed.

Lemma quiet_setSamplerate (v : Q) : quiet (setSamplerate v).
Proof.
  intro d. rewrite setSamplerate_eq. do 3 eexists.
  split; [reflexivity|]. split; [reflexivity|]. split; [reflexivity|].
  split; reflexivity.
Qed.

Lemma quiet_setTimebase (t : Q) : quiet (setTimebase t).
Proof.
  intro d. rewrite setTimebase_eq. do 3 eexists.
  split; [reflexivity|]. rewrite after_calc_scope, after_calc_trace.
  split; [reflexivity|]. cbn [trace samplerateSteps].
  split; [rewrite <- app_assoc; reflexivity|].
  apply widget_only_app; [|apply calc_calls_widget_only].
  unfold stepped_calls. destruct (find_step _ _); split; reflexivity.
Qed.

Lemma quiet_setFormat (TY XY f : Z) : quiet (setFormat TY XY f).
Proof.
  intro d. rewrite setFormat_eq.
  destruct ((TY <=? f)%Z && (f <=? XY)%Z).
  - do 3 eexists. split; [reflexivity|]. split; [reflexivity|].
    split; [reflexivity|]. apply widget_only_index.
  - exists (-1)%Z, d, []. rewrite app_nil_r.
    repeat split; reflexivity.
Qed.

Lemma quiet_setCalfreq (v : Q) : quiet (setCalfreq v).
Proof.
  intro d. rewrite setCalfreq_eq. do 3 eexists.
  split; [reflexivity|]. split; [reflexivity|]. split; [reflexivity|].
  split; reflexivity.
Qed.

(** C9.  The setters [setSamplerate], [setTimebase], [setFormat],
    [setCalfreq] and [loadSettings] leave the shared settings object
    unchanged, whatever the dock they are called on (slots connected or not,
    signals blocked before or not): under their signal blockers no slot
    runs, so the trace gains widget calls only, no assignment and no
    signal. *)
Theorem setters_leave_settings_unchanged (TY XY : Z) :
  (forall v, quiet (setSamplerate v))
  /\ (forall t, quiet (setTimebase t))
  /\ (forall f, quiet (setFormat TY XY f))
  /\ (forall v, quiet (setCalfreq v))
  /\ (forall r, quiet (loadSettings TY XY r)).
Proof.
  split; [exact quiet_setSamplerate|].
  split; [exact quiet_setTimebase|].
  split; [exact (quiet_setFormat TY XY)|].
  split; [exact quiet_setCalfreq|].
  intro r. unfold loadSettings.
  repeat first
    [ apply quiet_deref | apply quiet_setSamplerate | apply quiet_setTimebase
    | apply quiet_setFormat | apply quiet_setCalfreq | apply quiet_ret
    | apply quiet_bind; [|intro] ].
Qed.

(** ** The samplerate limits *)

(** C8, as stated, fails.  On the sample dock the samplerate spin box has
    the minimum 1; after [setSamplerateLimits( 0, 0.5 )] its minimum is
    0.5, because the spin box moves its minimum down with a maximum
    below it. *)
Lemma setSamplerateLimits_zero_minimum_not_kept :
  exists d',
    setSamplerateLimits 0 (1 # 2) Sample.dock = Some (tt, d')
    /\ sb_minimum (samplerateSiSpinBox Sample.dock) = 1
    /\ sb_minimum (samplerateSiSpinBox d') = 1 # 2
    /\ ~ sb_minimum (samplerateSiSpinBox d')
         == sb_minimum (samplerateSiSpinBox Sample.dock).
Proof.
  eexists. split; [vm_compute; reflexivity|].
  split; [reflexivity|]. split; [reflexivity|].
  cbn. intro H. discriminate H.
Qed.

(** C8, amended.  [setSamplerateLimits] makes no call for a zero argument;
    with both arguments zero the dock stays as it is.  A zero minimum keeps
    the minimum of the spin box if the maximum given is zero or not below
    that minimum; a zero maximum keeps the maximum of the spin box if the
    minimum given is zero or not above that maximum.  A nonzero maximum
    becomes the maximum of the spin box; a nonzero minimum becomes its
    minimum if the maximum given is zero or not below it. *)
Theorem setSamplerateLimits_bounds (minimum maximum : Q) (d : HorizontalDock) :
  exists d',
    setSamplerateLimits minimum maximum d = Some (tt, d')
    /\ samplerateSiSpinBox d'
       = limits_sb minimum maximum (samplerateSiSpinBox d)
    /\ trace d' = trace d ++ limits_calls minimum maximum
    /\ (minimum == 0 -> maximum == 0 -> d' = d)
    /\ (minimum == 0 ->
        maximum == 0 \/ sb_minimum (samplerateSiSpinBox d) <= maximum ->
        sb_minimum (samplerateSiSpinBox d')
        == sb_minimum (samplerateSiSpinBox d))
    /\ (maximum == 0 ->
        minimum == 0 \/ minimum <= sb_maximum (samplerateSiSpinBox d) ->
        sb_maximum (samplerateSiSpinBox d')
        == sb_maximum (samplerateSiSpinBox d))
    /\ (~ maximum == 0 ->
        sb_maximum (samplerateSiSpinBox d') = maximum)
    /\ (~ minimum == 0 ->
        maximum == 0 \/ minimum <= maximum ->
        sb_minimum (samplerateSiSpinBox d') == minimum).
Proof.
  rewrite setSamplerateLimits_eq. eexists. split; [reflexivity|].
  split; [reflexivity|]. split; [reflexivity|].
  unfold with_limits, limits_sb, limits_calls. cbn [samplerateSiSpinBox].
  split.
  { intros Hmin Hmax.
    apply to_bool_false_iff in Hmin. apply to_bool_false_iff in Hmax.
    rewrite Hmin, Hmax. cbn. rewrite app_nil_r. destruct d; reflexivity. }
  split.
  { intros Hmin H. apply to_bool_false_iff in Hmin. rewrite Hmin.
    destruct (to_bool maximum) eqn:Hmax; [|reflexivity].
    apply to_bool_true_iff in Hmax. destruct H as [H|H]; [contradiction|].
    apply sb_setMaximum_minimum_keeps. exact H. }
  split.
  { intros Hmax H. apply to_bool_false_iff in Hmax. rewrite Hmax.
    destruct (to_bool minimum) eqn:Hmin; [|reflexivity].
    apply to_bool_true_iff in Hmin. destruct H as [H|H]; [contradiction|].
    apply sb_setMinimum_maximum_keeps. exact H. }
  split.
  { intro Hmax. apply to_bool_true_iff in Hmax. rewrite Hmax.
    apply sb_setMaximum_maximum. }
  intros Hmin H. apply to_bool_true_iff in Hmin. rewrite Hmin.
  destruct (to_bool maximum) eqn:Hmax.
  - apply to_bool_true_iff in Hmax. destruct H as [H|H]; [contradiction|].
    apply sb_setMaximum_minimum_keeps. exact H.
  - reflexivity.
Qed.

(** The amended C8 at the sample dock, whose samplerate spin box has the
    range from 1 to 100000000. *)
Lemma setSamplerateLimits_bounds_witness :
  exists d',
    setSamplerateLimits 0 (1000 # 1) Sample.dock = Some (tt, d')
    /\ sb_minimum (samplerateSiSpinBox d')
       == sb_minimum (samplerateSiSpinBox Sample.dock)
    /\ sb_maximum (samplerateSiSpinBox d') = 1000 # 1.
Proof.
  destruct (setSamplerateLimits_bounds 0 (1000 # 1) Sample.dock)
    as (d' & E & _ & _ & _ & Hmin & _ & Hmax & _).
  exists d'. split; [exact E|]. split.
  - apply Hmin; [reflexivity | right; vm_compute; discriminate].
  - apply Hmax. vm_compute. discriminate.
Defined.

(** ** Binding the spin boxes to the steps of the device *)

Lemma setSamplerateSteps_eq (mode : Z) (steps : list Q) (d : HorizontalDock) :
  steps <> [] ->
  setSamplerateSteps mode steps d
  = Some (tt, after_calc
                (sb_value (timebaseSiSpinBox (with_steps mode steps d)))
                (with_steps mode steps d)).
Proof.
  intro H.
  unfold setSamplerateSteps, samplerate_call, timebase_call.
  rewrite (first_eq steps H), (last_eq steps H).
  unfold bind, block, unblock, modify, gets, ret.
  destruct d as [sc sr tb cf fc ss ts cn tr], tb as [mn mx v st md bl],
    sr as [mn' mx' v' st' md' bl'].
  cbn [spin set_samplerateSteps samplerateSiSpinBox timebaseSiSpinBox
       set_spin sb_blockSignals scope calfreqSiSpinBox formatComboBox
       samplerateSteps timebaseSteps connected trace
       sb_minimum sb_maximum sb_value sb_steps sb_mode sb_blocked].
  repeat (rewrite spin_call_blocked by reflexivity;
          cbn [spin set_spin add_trace sb_blockSignals samplerateSiSpinBox
               timebaseSiSpinBox scope calfreqSiSpinBox formatComboBox
               samplerateSteps timebaseSteps connected trace]).
  rewrite calculateSamplerateSteps_eq.
  unfold after_calc, with_steps.
  cbn [samplerateSteps samplerateSiSpinBox timebaseSiSpinBox].
  destruct steps as [|s0 rest]; [congruence|].
  unfold with_limits, limits_sb.
  cbn -[calc_limits List.last hd decade Qdiv sb_bound dlt to_bool
        limits_calls].
  rewrite <- !app_assoc.
  destruct (to_bool (fst _)), (to_bool (snd _)); reflexivity.
Qed.

(** The witness of C1: the timebase 3 ms on the sample dock is set to
    2 ms. *)
Lemma setTimebase_clamps_to_step_grid_witness :
  exists step d',
    In step [1; 2 # 1; 5 # 1]
    /\ step <= (3 # 1000) / (10 # 1) ^ floor_log10 (3 # 1000)
    /\ setTimebase (3 # 1000) Sample.dock
       = Some (sb_value (timebaseSiSpinBox d'), d')
    /\ timebaseSiSpinBox d'
       = sb_setValue ((10 # 1) ^ floor_log10 (3 # 1000) * step)
                     (timebaseSiSpinBox Sample.dock).
Proof.
  destruct (setTimebase_clamps_to_step_grid Sample.dock (3 # 1000))
    as (step & d' & Hin & Hle & _ & E & Hsb).
  - reflexivity.
  - reflexivity.
  - vm_compute. discriminate.
  - reflexivity.
  - exists step, d'. repeat split; assumption.
Defined.

(** ** The samplerate range derived from the timebase *)

Lemma calc_loop_scan (steps : list Q) (t : Q) (ids : list nat) (a b : Q) :
  fold_left (calc_step steps t) ids (a, b)
  = (scan steps (min_test steps t) ids a, scan steps (max_test steps t) ids b).
Proof.
  revert a b. induction ids as [|id ids IH]; intros a b; [reflexivity|].
  cbn [fold_left scan]. unfold calc_step at 2. cbn [fst snd].
  rewrite IH. reflexivity.
Qed.

Lemma scan_seq (steps : list Q) (p : nat -> bool) (init : Q) (n : nat) :
  (exists i, (i < n)%nat
             /\ p i = true
             /\ scan steps p (seq 0 n) init = nth i steps 0
             /\ forall j, (i < j < n)%nat -> p j = false)
  \/ ((forall j, (j < n)%nat -> p j = false)
      /\ scan steps p (seq 0 n) init = init).
Proof.
  induction n as [|n IH].
  - right. split; [intros j Hj; lia | reflexivity].
  - rewrite seq_S. unfold scan in *. rewrite fold_left_app.
    cbn [fold_left Nat.add].
    destruct (p n) eqn:E.
    + left. exists n. repeat split; [lia | exact E | intros j Hj; lia].
    + destruct IH as [(i & Hi & Hp & Hr & Hlast) | (Hnone & Hr)].
      * left. exists i. repeat split; [lia | exact Hp | exact Hr |].
        intros j Hj. destruct (Nat.eq_dec j n) as [->|]; [exact E|].
        apply Hlast. lia.
      * right. split; [|exact Hr].
        intros j Hj. destruct (Nat.eq_dec j n) as [->|]; [exact E|].
        apply Hnone. lia.
Qed.

Lemma StronglySorted_nth (l : list Q) :
  StronglySorted Qle l ->
  forall i j, (i <= j < length l)%nat -> nth i l 0 <= nth j l 0.
Proof.
  induction 1 as [|a l Hs IH Hall]; intros i j Hij; [cbn in Hij; lia|].
  destruct j as [|j].
  - assert (i = 0%nat) by lia. subst. apply Qle_refl.
  - destruct i as [|i].
    + cbn [nth]. rewrite Forall_forall in Hall. apply Hall.
      apply nth_In. cbn in Hij. lia.
    + cbn [nth]. apply IH. cbn in Hij. lia.
Qed.

Lemma Sorted_nth (l : list Q) :
  Sorted Qle l ->
  forall i j, (i <= j < length l)%nat -> nth i l 0 <= nth j l 0.
Proof.
  intro H. apply StronglySorted_nth. apply Sorted_StronglySorted; [|exact H].
  intros x y z. apply Qle_trans.
Qed.

Lemma calc_loop_eq (steps : list Q) (t : Q) :
  calc_loop steps t
  = (scan steps (min_test steps t) (seq 0 (length steps)) (nth 0 steps 0),
     scan steps (max_test steps t) (seq 0 (length steps)) (nth 0 steps 0)).
Proof. apply calc_loop_scan. Qed.

Lemma calc_limits_eq (steps : list Q) (t : Q) :
  calc_limits steps t
  = (qMax (fst (calc_loop steps t))
          (qMin (10000 # 1) (snd (calc_loop steps t))),
     snd (calc_loop steps t)).
Proof. unfold calc_limits. destruct (calc_loop steps t); reflexivity. Qed.

(** The maximum the loop finds. *)
Lemma calc_loop_max (steps : list Q) (t : Q) :
  Sorted Qle steps ->
  largest_step_where steps
    (fun i s => (1 <= i)%nat /\ s * t <= 1000 # 1)
    (snd (calc_loop steps t)).
Proof.
  intro Hs. rewrite calc_loop_eq. cbn [snd].
  destruct (scan_seq steps (max_test steps t) (nth 0 steps 0) (length steps))
    as [(i & Hi & Hp & Hr & Hlast) | (Hnone & Hr)]; rewrite Hr.
  - left. exists i. unfold max_test in Hp.
    apply andb_true_iff in Hp. destruct Hp as [Hp1 Hp2].
    apply negb_true_iff, Nat.eqb_neq in Hp1. apply dle_iff in Hp2.
    repeat split; [exact Hi | lia | exact Hp2 |].
    intros j Hj [Hj1 Hj2].
    destruct (Nat.le_gt_cases j i) as [Hle|Hgt].
    + apply Sorted_nth; [exact Hs | lia].
    + exfalso. assert (F : max_test steps t j = false) by (apply Hlast; lia).
      unfold max_test in F. apply andb_false_iff in F. destruct F as [F|F].
      * apply negb_false_iff, Nat.eqb_eq in F. lia.
      * apply dle_false_iff in F. apply (Qlt_irrefl (1000 # 1)).
        apply Qlt_le_trans with (nth j steps 0 * t); assumption.
  - right. split; [|reflexivity].
    intros j Hj [Hj1 Hj2].
    assert (F : max_test steps t j = false) by (apply Hnone; exact Hj).
    unfold max_test in F. apply andb_false_iff in F. destruct F as [F|F].
    + apply negb_false_iff, Nat.eqb_eq in F. lia.
    + apply dle_false_iff in F. apply (Qlt_irrefl (1000 # 1)).
      apply Qlt_le_trans with (nth j steps 0 * t); assumption.
Qed.

(** The minimum the loop finds. *)
Lemma calc_loop_min (steps : list Q) (t : Q) :
  Sorted Qle steps ->
  largest_step_where steps
    (fun i s => (i < length steps - 1)%nat /\ s * t <= 10 # 1)
    (fst (calc_loop steps t)).
Proof.
  intro Hs. rewrite calc_loop_eq. cbn [fst].
  destruct (scan_seq steps (min_test steps t) (nth 0 steps 0) (length steps))
    as [(i & Hi & Hp & Hr & Hlast) | (Hnone & Hr)]; rewrite Hr.
  - left. exists i. unfold min_test in Hp.
    apply andb_true_iff in Hp. destruct Hp as [Hp1 Hp2].
    apply Nat.ltb_lt in Hp1. apply dle_iff in Hp2.
    repeat split; [exact Hi | exact Hp1 | exact Hp2 |].
    intros j Hj [Hj1 Hj2].
    destruct (Nat.le_gt_cases j i) as [Hle|Hgt].
    + apply Sorted_nth; [exact Hs | lia].
    + exfalso. assert (F : min_test steps t j = false) by (apply Hlast; lia).
      unfold min_test in F. apply andb_false_iff in F. destruct F as [F|F].
      * apply Nat.ltb_ge in F. lia.
      * apply dle_false_iff in F. apply (Qlt_irrefl (10 # 1)).
        apply Qlt_le_trans with (nth j steps 0 * t); assumption.
  - right. split; [|reflexivity].
    intros j Hj [Hj1 Hj2].
    assert (F : min_test steps t j = false) by (apply Hnone; exact Hj).
    unfold min_test in F. apply andb_false_iff in F. destruct F as [F|F].
    + apply Nat.ltb_ge in F. lia.
    + apply dle_false_iff in F. apply (Qlt_irrefl (10 # 1)).
      apply Qlt_le_trans with (nth j steps 0 * t); assumption.
Qed.

(** The loop leaves its minimum at or below its maximum. *)
Lemma calc_loop_ordered (steps : list Q) (t : Q) :
  Sorted Qle steps ->
  fst (calc_loop steps t) <= snd (calc_loop steps t).
Proof.
  intro Hs. rewrite calc_loop_eq. cbn [fst snd].
  destruct (scan_seq steps (max_test steps t) (nth 0 steps 0) (length steps))
    as [(i & Hi & Hp & Hr & Hlast) | (Hnone & Hr)]; rewrite Hr;
  destruct (scan_seq steps (min_test steps t) (nth 0 steps 0) (length steps))
    as [(k & Hk & Hq & Hr' & Hlast') | (Hnone' & Hr')]; rewrite Hr'.
  - (* both found: the index of the minimum is not above that of the maximum *)
    apply Sorted_nth; [exact Hs|]. split; [|exact Hi].
    destruct (Nat.le_gt_cases k i) as [Hle|Hgt]; [exact Hle|].
    exfalso. assert (F : max_test steps t k = false) by (apply Hlast; lia).
    unfold min_test in Hq. apply andb_true_iff in Hq. destruct Hq as [_ Hq].
    apply dle_iff in Hq.
    unfold max_test in F. apply andb_false_iff in F. destruct F as [F|F].
    + apply negb_false_iff, Nat.eqb_eq in F. lia.
    + apply dle_false_iff in F. apply (Qlt_irrefl (1000 # 1)).
      apply Qlt_le_trans with (nth k steps 0 * t); [exact F|].
      apply Qle_trans with (10 # 1); [exact Hq | discriminate].
  - apply Sorted_nth; [exact Hs | lia].
  - (* no maximum found: the minimum was found at index 0 *)
    destruct k as [|k]; [apply Qle_refl|].
    exfalso. assert (F : max_test steps t (S k) = false)
      by (apply Hnone; exact Hk).
    unfold min_test in Hq. apply andb_true_iff in Hq. destruct Hq as [_ Hq].
    apply dle_iff in Hq.
    unfold max_test in F. cbn [Nat.eqb negb andb] in F.
    apply dle_false_iff in F. apply (Qlt_irrefl (1000 # 1)).
    apply Qlt_le_trans with (nth (S k) steps 0 * t); [exact F|].
    apply Qle_trans with (10 # 1); [exact Hq | discriminate].
  - apply Qle_refl.
Qed.

(** C10.  For a non-empty [samplerateSteps] sorted in ascending order, the
    range [calculateSamplerateSteps t] hands to [setSamplerateLimits] has
    its minimum at or below its maximum: raising the minimum to the smaller
    of 10000 and the maximum never lifts it above the maximum.  This holds
    for every timebase, positive or not. *)
Theorem calculateSamplerateSteps_range_ordered (t : Q) (d : HorizontalDock) :
  samplerateSteps d <> [] ->
  Sorted Qle (samplerateSteps d) ->
  exists mn mx,
    calc_limits (samplerateSteps d) t = (mn, mx)
    /\ calculateSamplerateSteps t d = setSamplerateLimits mn mx d
    /\ mn <= mx.
Proof.
  intros Hne Hs.
  exists (fst (calc_limits (samplerateSteps d) t)),
         (snd (calc_limits (samplerateSteps d) t)).
  split; [destruct (calc_limits _ _); reflexivity|].
  split.
  - unfold calculateSamplerateSteps, bind, gets.
    destruct (samplerateSteps d) as [|s l] eqn:E; [congruence|].
    cbn [length Nat.eqb]. destruct (calc_limits (s :: l) t); reflexivity.
  - rewrite calc_limits_eq. cbn [fst snd].
    apply qMax_lub; [apply calc_loop_ordered; exact Hs | apply qMin_le_r].
Qed.

(** The witness of C10: the sample rates at the timebase 1 ms. *)
Lemma calculateSamplerateSteps_range_ordered_witness :
  exists mn mx,
    calc_limits Sample.rates (1 # 1000) = (mn, mx)
    /\ calculateSamplerateSteps (1 # 1000)
         (set_samplerateSteps Sample.rates Sample.dock)
       = setSamplerateLimits mn mx
           (set_samplerateSteps Sample.rates Sample.dock)
    /\ mn <= mx.
Proof.
  apply (calculateSamplerateSteps_range_ordered (1 # 1000)
           (set_samplerateSteps Sample.rates Sample.dock)).
  - discriminate.
  - repeat constructor; discriminate.
Defined.

(** ** The timebase steps stay what the constructor made them *)

Lemma timebaseSteps_kept (TY XY : Z) (d : HorizontalDock) :
  (forall v r d', setSamplerate v d = Some (r, d') ->
                  timebaseSteps d' = timebaseSteps d)
  /\ (forall t r d', setTimebase t d = Some (r, d') ->
                     timebaseSteps d' = timebaseSteps d)
  /\ (forall f r d', setFormat TY XY f d = Some (r, d') ->
                     timebaseSteps d' = timebaseSteps d)
  /\ (forall v r d', setCalfreq v d = Some (r, d') ->
                     timebaseSteps d' = timebaseSteps d)
  /\ (forall mn mx r d', setSamplerateLimits mn mx d = Some (r, d') ->
                         timebaseSteps d' = timebaseSteps d)
  /\ (forall mode steps r d', setSamplerateSteps mode steps d = Some (r, d') ->
                              timebaseSteps d' = timebaseSteps d)
  /\ (forall v r d', samplerateSelected v d = Some (r, d') ->
                     timebaseSteps d' = timebaseSteps d)
  /\ (forall t r d', timebaseSelected t d = Some (r, d') ->
                     timebaseSteps d' = timebaseSteps d)
  /\ (forall i r d', formatSelected i d = Some (r, d') ->
                     timebaseSteps d' = timebaseSteps d)
  /\ (forall v r d', calfreqSelected v d = Some (r, d') ->
                     timebaseSteps d' = timebaseSteps d).
Proof.
  repeat split.
  - intros v r d'. rewrite setSamplerate_eq. intro E. inversion E. reflexivity.
  - intros t r d'. rewrite setTimebase_eq. intro E. inversion E.
    rewrite after_calc_timebaseSteps. reflexivity.
  - intros f r d'. rewrite setFormat_eq.
    destruct (_ && _); intro E; inversion E; reflexivity.
  - intros v r d'. rewrite setCalfreq_eq. intro E. inversion E. reflexivity.
  - intros mn mx r d'. rewrite setSamplerateLimits_eq. intro E. inversion E.
    reflexivity.
  - intros mode steps r d'. destruct steps as [|s0 rest].
    + unfold setSamplerateSteps, bind, modify, block, samplerate_call.
      rewrite !spin_call_blocked by reflexivity. discriminate.
    + rewrite setSamplerateSteps_eq by discriminate. intro E. inversion E.
      rewrite after_calc_timebaseSteps. reflexivity.
  - intros v r d'. rewrite samplerateSelected_eq. intro E. inversion E.
    reflexivity.
  - intros t r d'. rewrite timebaseSelected_eq. intro E. inversion E.
    cbn [add_trace timebaseSteps]. rewrite after_calc_timebaseSteps.
    reflexivity.
  - intros i r d'. rewrite formatSelected_eq. intro E. inversion E.
    reflexivity.
  - intros v r d'. rewrite calfreqSelected_eq. intro E. inversion E.
    reflexivity.
Qed.

Lemma constructor_timebaseSteps (TY XY : Z) (new : SiSpinBox)
      (s : DsoSettingsScope) (calfreqSteps : list Q) (d : HorizontalDock) :
  constructor TY XY new s calfreqSteps = Some d ->
  timebaseSteps d = steps_1_2_5_10.
Proof.
  intro E. destruct calfreqSteps as [|c cs].
  - unfold constructor, constructor_body, bind, samplerate_call,
      timebase_call, calfreq_call in E. cbn in E. discriminate.
  - destruct (constructor_calfreq TY XY new s (c :: cs))
      as (d0 & E0 & _ & H & _); [discriminate|].
    rewrite E in E0. inversion E0. exact H.
Qed.

(** ** The functions at work *)

Example setTimebase_3ms :
  option_map fst (setTimebase (3 # 1000) Sample.dock) = Some (2 # 1000).
Proof. vm_compute. reflexivity. Qed.

Example setTimebase_zero_keeps_value :
  option_map fst (setTimebase 0 Sample.dock) = Some (1 # 1000).
Proof. vm_compute. reflexivity. Qed.

Example calc_limits_1ms :
  calc_limits Sample.rates (1 # 1000) = (10000 # 1, 1000000 # 1).
Proof. vm_compute. reflexivity. Qed.

Example calc_limits_1s :
  calc_limits Sample.rates 1 = (1000 # 1, 1000 # 1).
Proof. vm_compute. reflexivity. Qed.

Example setSamplerateSteps_empty_undefined :
  setSamplerateSteps 1 [] Sample.dock = None.
Proof. reflexivity. Qed.

Example setCalfreq_above_range :
  option_map fst (setCalfreq (5000 # 1) Sample.dock) = Some (1000 # 1).
Proof. vm_compute. reflexivity. Qed.

(** * Further properties of the dock *)

(** ** The samplerate limits, continued *)

Lemma scan_member (steps : list Q) (p : nat -> bool) :
  steps <> [] ->
  In (scan steps p (seq 0 (length steps)) (nth 0 steps 0)) steps.
Proof.
  intro H.
  assert (H0 : (0 < length steps)%nat)
    by (destruct steps; [congruence | cbn; lia]).
  destruct (scan_seq steps p (nth 0 steps 0) (length steps))
    as [(i & Hi & _ & Hr & _) | (_ & Hr)];
    rewrite Hr; apply nth_In; assumption.
Qed.

(** X1.  The limits [calculateSamplerateSteps] hands to
    [setSamplerateLimits] are taken from the step list, in whatever order
    the list is: the maximum is one of the steps, the minimum is one of the
    steps or the floor of 10000 samples per second. *)
Theorem calculateSamplerateSteps_limits_are_steps (t : Q) (d : HorizontalDock) :
  samplerateSteps d <> [] ->
  exists mn mx,
    calculateSamplerateSteps t d = setSamplerateLimits mn mx d
    /\ In mx (samplerateSteps d)
    /\ (In mn (samplerateSteps d) \/ mn = 10000 # 1).
Proof.
  intro Hne.
  exists (fst (calc_limits (samplerateSteps d) t)),
         (snd (calc_limits (samplerateSteps d) t)).
  split.
  { unfold calculateSamplerateSteps, bind, gets.
    destruct (samplerateSteps d) as [|s l] eqn:E; [congruence|].
    cbn [length Nat.eqb]. destruct (calc_limits (s :: l) t); reflexivity. }
  rewrite calc_limits_eq, calc_loop_eq. cbn [fst snd].
  pose proof (scan_member (samplerateSteps d)
                (min_test (samplerateSteps d) t) Hne) as Hmin.
  pose proof (scan_member (samplerateSteps d)
                (max_test (samplerateSteps d) t) Hne) as Hmax.
  split; [exact Hmax|].
  unfold qMax, qMin.
  destruct (dlt (10000 # 1) _); destruct (dlt _ _); auto.
Qed.

(** The witness of X1: the sample rates at the timebase 1 ms. *)
Lemma calculateSamplerateSteps_limits_are_steps_witness :
  exists mn mx,
    calculateSamplerateSteps (1 # 1000)
      (set_samplerateSteps Sample.rates Sample.dock)
    = setSamplerateLimits mn mx (set_samplerateSteps Sample.rates Sample.dock)
    /\ In mx Sample.rates
    /\ (In mn Sample.rates \/ mn = 10000 # 1).
Proof.
  apply (calculateSamplerateSteps_limits_are_steps (1 # 1000)
           (set_samplerateSteps Sample.rates Sample.dock)).
  discriminate.
Defined.

(** A test that passes less often gives a smaller step. *)
Lemma scan_antitone (steps : list Q) (p q : nat -> bool) :
  Sorted Qle steps ->
  (forall j, (j < length steps)%nat -> q j = true -> p j = true) ->
  scan steps q (seq 0 (length steps)) (nth 0 steps 0)
  <= scan steps p (seq 0 (length steps)) (nth 0 steps 0).
Proof.
  intros Hs Himp.
  destruct (scan_seq steps q (nth 0 steps 0) (length steps))
    as [(i & Hi & Hq & Hr & _) | (_ & Hr)]; rewrite Hr;
  destruct (scan_seq steps p (nth 0 steps 0) (length steps))
    as [(k & Hk & Hp & Hr' & Hlast) | (Hnone & Hr')]; rewrite Hr'.
  - apply Sorted_nth; [exact Hs|]. split; [|exact Hk].
    destruct (Nat.le_gt_cases i k) as [Hle|Hgt]; [exact Hle|].
    exfalso. assert (F : p i = false) by (apply Hlast; lia).
    rewrite (Himp i Hi Hq) in F. discriminate.
  - exfalso. assert (F : p i = false) by (apply Hnone; exact Hi).
    rewrite (Himp i Hi Hq) in F. discriminate.
  - apply Sorted_nth; [exact Hs | lia].
  - apply Qle_refl.
Qed.

Lemma qMin_monotone (a b b' : Q) : b <= b' -> qMin a b <= qMin a b'.
Proof.
  intro H. unfold qMin.
  destruct (dlt a b) eqn:E1, (dlt a b') eqn:E2;
    try apply dlt_iff in E1; try apply dlt_iff in E2;
    try apply dlt_false_iff in E1; try apply dlt_false_iff in E2; lra.
Qed.

Lemma qMax_monotone (a a' b b' : Q) :
  a <= a' -> b <= b' -> qMax a b <= qMax a' b'.
Proof.
  intros Ha Hb. unfold qMax.
  destruct (dlt a b) eqn:E1, (dlt a' b') eqn:E2;
    try apply dlt_iff in E1; try apply dlt_iff in E2;
    try apply dlt_false_iff in E1; try apply dlt_false_iff in E2; lra.
Qed.

Lemma max_test_antitone (steps : list Q) (t1 t2 : Q) (j : nat) :
  0 <= nth j steps 0 -> t1 <= t2 ->
  max_test steps t2 j = true -> max_test steps t1 j = true.
Proof.
  intros H0 Ht. unfold max_test. rewrite !andb_true_iff, !dle_iff.
  intros [H1 H2]. split; [exact H1|]. nra.
Qed.

Lemma min_test_antitone (steps : list Q) (t1 t2 : Q) (j : nat) :
  0 <= nth j steps 0 -> t1 <= t2 ->
  min_test steps t2 j = true -> min_test steps t1 j = true.
Proof.
  intros H0 Ht. unfold min_test. rewrite !andb_true_iff, !dle_iff.
  intros [H1 H2]. split; [exact H1|]. nra.
Qed.

Lemma all_positive_nth (steps : list Q) (j : nat) :
  all_positive steps -> (j < length steps)%nat -> 0 < nth j steps 0.
Proof.
  intros H Hj. unfold all_positive in H. rewrite Forall_forall in H.
  apply H. apply nth_In. exact Hj.
Qed.

(** X2.  A slower timebase never raises the samplerate range: for an
    ascending list of positive steps and [t1 <= t2], both limits derived
    for [t2] are at or below those derived for [t1]. *)
Theorem calc_limits_antitone (steps : list Q) (t1 t2 : Q) :
  Sorted Qle steps ->
  all_positive steps ->
  t1 <= t2 ->
  fst (calc_limits steps t2) <= fst (calc_limits steps t1)
  /\ snd (calc_limits steps t2) <= snd (calc_limits steps t1).
Proof.
  intros Hs Hpos Ht.
  assert (Hmax : snd (calc_loop steps t2) <= snd (calc_loop steps t1)).
  { rewrite !calc_loop_eq. cbn [snd]. apply scan_antitone; [exact Hs|].
    intros j Hj. apply max_test_antitone; [|exact Ht].
    apply Qlt_le_weak, all_positive_nth; assumption. }
  assert (Hmin : fst (calc_loop steps t2) <= fst (calc_loop steps t1)).
  { rewrite !calc_loop_eq. cbn [fst]. apply scan_antitone; [exact Hs|].
    intros j Hj. apply min_test_antitone; [|exact Ht].
    apply Qlt_le_weak, all_positive_nth; assumption. }
  rewrite !calc_limits_eq. cbn [fst snd]. split; [|exact Hmax].
  apply qMax_monotone; [exact Hmin|]. apply qMin_monotone. exact Hmax.
Qed.

(** The witness of X2: the sample rates at 1 ms and at 1 s. *)
Lemma calc_limits_antitone_witness :
  fst (calc_limits Sample.rates 1) <= fst (calc_limits Sample.rates (1 # 1000))
  /\ snd (calc_limits Sample.rates 1)
     <= snd (calc_limits Sample.rates (1 # 1000)).
Proof.
  apply (calc_limits_antitone Sample.rates (1 # 1000) 1).
  - repeat constructor; discriminate.
  - repeat constructor.
  - discriminate.
Defined.

Lemma calc_limits_single (s t : Q) : calc_limits [s] t = (s, s).
Proof.
  rewrite calc_limits_eq. unfold calc_loop. cbn. unfold qMax, qMin.
  destruct (dlt (10000 # 1) s) eqn:E1.
  - destruct (dlt s (10000 # 1)) eqn:E2; [|reflexivity].
    apply dlt_iff in E1. apply dlt_iff in E2. lra.
  - destruct (dlt s s) eqn:E2; [|reflexivity].
    apply dlt_iff in E2. lra.
Qed.

(** X3.  With a single samplerate step [s], [calculateSamplerateSteps]
    hands the range from [s] to [s] to [setSamplerateLimits], whatever the
    timebase: neither test of the loop applies to the only index, and the
    floor of 10000 does not lift the minimum above the maximum. *)
Theorem calculateSamplerateSteps_single_step (s t : Q) (d : HorizontalDock) :
  samplerateSteps d = [s] ->
  calculateSamplerateSteps t d = setSamplerateLimits s s d.
Proof.
  intro E. unfold calculateSamplerateSteps, bind, gets. rewrite E.
  cbn [length Nat.eqb]. rewrite calc_limits_single. reflexivity.
Qed.

(** The witness of X3: the single step 48000 on the sample dock. *)
Lemma calculateSamplerateSteps_single_step_witness :
  calculateSamplerateSteps (1 # 1000)
    (set_samplerateSteps [48000 # 1] Sample.dock)
  = setSamplerateLimits (48000 # 1) (48000 # 1)
      (set_samplerateSteps [48000 # 1] Sample.dock).
Proof.
  apply (calculateSamplerateSteps_single_step (48000 # 1) (1 # 1000)).
  reflexivity.
Defined.

Lemma sb_setRange_value_in_range (mn mx : Q) (sb : SiSpinBox) :
  sb_minimum (sb_setRange mn mx sb) <= sb_value (sb_setRange mn mx sb)
  /\ sb_value (sb_setRange mn mx sb) <= sb_maximum (sb_setRange mn mx sb).
Proof.
  unfold sb_setRange. cbn [sb_minimum sb_maximum sb_value].
  apply sb_bound_in_range.
  destruct (dlt mn mx) eqn:E.
  - apply dlt_iff in E. apply Qlt_le_weak. exact E.
  - apply Qle_refl.
Qed.

Lemma calc_limits_positive (steps : list Q) (t : Q) :
  steps <> [] -> all_positive steps ->
  0 < fst (calc_limits steps t) /\ 0 < snd (calc_limits steps t).
Proof.
  intros Hne Hpos.
  assert (Hin : forall x, In x steps -> 0 < x).
  { unfold all_positive in Hpos. rewrite Forall_forall in Hpos. exact Hpos. }
  rewrite calc_limits_eq, calc_loop_eq. cbn [fst snd].
  pose proof (Hin _ (scan_member steps (min_test steps t) Hne)) as Hmin.
  pose proof (Hin _ (scan_member steps (max_test steps t) Hne)) as Hmax.
  split; [|exact Hmax].
  unfold qMax, qMin.
  destruct (dlt (10000 # 1) _); destruct (dlt _ _);
    assumption || reflexivity.
Qed.

Lemma positive_to_bool (x : Q) : 0 < x -> to_bool x = true.
Proof.
  intro H. apply to_bool_true_iff. intro E. rewrite E in H. discriminate H.
Qed.

(** X4.  For a non-empty ascending list of positive samplerate steps,
    [calculateSamplerateSteps t] leaves the samplerate spin box with exactly
    the derived range, and with a value inside that range. *)
Theorem calculateSamplerateSteps_sets_range (t : Q) (d : HorizontalDock) :
  samplerateSteps d <> [] ->
  Sorted Qle (samplerateSteps d) ->
  all_positive (samplerateSteps d) ->
  exists d',
    calculateSamplerateSteps t d = Some (tt, d')
    /\ sb_minimum (samplerateSiSpinBox d')
       == fst (calc_limits (samplerateSteps d) t)
    /\ sb_maximum (samplerateSiSpinBox d')
       = snd (calc_limits (samplerateSteps d) t)
    /\ sb_minimum (samplerateSiSpinBox d') <= sb_value (samplerateSiSpinBox d')
    /\ sb_value (samplerateSiSpinBox d') <= sb_maximum (samplerateSiSpinBox d').
Proof.
  intros Hne Hs Hpos.
  rewrite calculateSamplerateSteps_eq. eexists. split; [reflexivity|].
  destruct (calc_limits_positive _ t Hne Hpos) as [Hmn Hmx].
  assert (Hle : fst (calc_limits (samplerateSteps d) t)
                <= snd (calc_limits (samplerateSteps d) t)).
  { rewrite calc_limits_eq. cbn [fst snd].
    apply qMax_lub; [apply calc_loop_ordered; exact Hs | apply qMin_le_r]. }
  destruct (samplerateSteps d) as [|s0 l] eqn:E; [congruence|].
  unfold with_limits, limits_sb. cbn [samplerateSiSpinBox].
  rewrite (positive_to_bool _ Hmn), (positive_to_bool _ Hmx).
  split; [apply sb_setMaximum_minimum_keeps; exact Hle|].
  split; [apply sb_setMaximum_maximum|].
  unfold sb_setMaximum at 1 2 3 4. apply sb_setRange_value_in_range.
Qed.

(** The witness of X4: the sample rates on the sample dock. *)
Lemma calculateSamplerateSteps_sets_range_witness :
  exists d',
    calculateSamplerateSteps (1 # 1000)
      (set_samplerateSteps Sample.rates Sample.dock) = Some (tt, d')
    /\ sb_minimum (samplerateSiSpinBox d') == 10000 # 1
    /\ sb_maximum (samplerateSiSpinBox d') = 1000000 # 1.
Proof.
  destruct (calculateSamplerateSteps_sets_range (1 # 1000)
              (set_samplerateSteps Sample.rates Sample.dock))
    as (d' & E & Hmin & Hmax & _).
  - discriminate.
  - repeat constructor; discriminate.
  - repeat constructor.
  - exists d'. split; [exact E|]. split; [exact Hmin | exact Hmax].
Defined.

(** ** The derived range and the spin box *)

Lemma limits_sb_both (mn mx : Q) (sb : SiSpinBox) :
  ~ mn == 0 -> ~ mx == 0 -> mn <= mx ->
  sb_minimum (limits_sb mn mx sb) == mn
  /\ sb_maximum (limits_sb mn mx sb) = mx
  /\ mn <= sb_value (limits_sb mn mx sb)
  /\ sb_value (limits_sb mn mx sb) <= mx.
Proof.
  intros Hmn Hmx Hle. unfold limits_sb.
  apply to_bool_true_iff in Hmn. apply to_bool_true_iff in Hmx.
  rewrite Hmn, Hmx.
  assert (Hmin : sb_minimum (sb_setMaximum mx (sb_setMinimum mn sb)) == mn)
    by (apply sb_setMaximum_minimum_keeps; exact Hle).
  assert (Hmax : sb_maximum (sb_setMaximum mx (sb_setMinimum mn sb)) = mx)
    by apply sb_setMaximum_maximum.
  destruct (sb_setRange_value_in_range
              (if dlt (sb_minimum (sb_setMinimum mn sb)) mx
               then sb_minimum (sb_setMinimum mn sb) else mx)
              mx (sb_setMinimum mn sb)) as [L U].
  fold (sb_setMaximum mx (sb_setMinimum mn sb)) in L, U.
  split; [exact Hmin|]. split; [exact Hmax|].
  split.
  - apply Qle_trans with (2 := L). apply Qle_lteq. right. symmetry.
    exact Hmin.
  - rewrite Hmax in U. exact U.
Qed.

Lemma limits_calls_both (mn mx : Q) :
  ~ mn == 0 -> ~ mx == 0 ->
  limits_calls mn mx
  = [ECall Samplerate (setMinimum mn); ECall Samplerate (setMaximum mx)].
Proof.
  intros Hmn Hmx. unfold limits_calls.
  apply to_bool_true_iff in Hmn. apply to_bool_true_iff in Hmx.
  rewrite Hmn, Hmx. reflexivity.
Qed.

Lemma with_limits_none (mn mx : Q) (d : HorizontalDock) :
  mn == 0 -> mx == 0 -> with_limits mn mx d = d.
Proof.
  intros Hmn Hmx. unfold with_limits, limits_sb, limits_calls.
  apply to_bool_false_iff in Hmn. apply to_bool_false_iff in Hmx.
  rewrite Hmn, Hmx. cbn. rewrite app_nil_r. destruct d; reflexivity.
Qed.

(** C2, as stated, fails.  With the ascending steps 0, 100 and 1000 and
    the timebase 100 the derived minimum and maximum are both 0;
    [setSamplerateLimits( 0, 0 )] makes no call, and the samplerate spin box
    keeps its limits 1 and 1e8: the derived values are not applied. *)
Lemma calculateSamplerateSteps_zero_limits_not_applied :
  let d := set_samplerateSteps [0; 100 # 1; 1000 # 1] Sample.dock in
  Sorted Qle [0; 100 # 1; 1000 # 1]
  /\ calc_limits [0; 100 # 1; 1000 # 1] (100 # 1) = (0, 0)
  /\ calculateSamplerateSteps (100 # 1) d = Some (tt, d)
  /\ sb_minimum (samplerateSiSpinBox d) = 1
  /\ sb_maximum (samplerateSiSpinBox d) = 100000000 # 1.
Proof.
  cbv zeta. split; [repeat constructor; discriminate|].
  split; [vm_compute; reflexivity|].
  split; [vm_compute; reflexivity|].
  split; reflexivity.
Qed.

(** C2, amended.  With an empty [samplerateSteps],
    [calculateSamplerateSteps t] changes nothing.  With a non-empty list
    sorted in ascending order, the maximum is the largest step at an index
    of at least 1 whose product with [t] is at most 1000 (the first step if
    there is none); the minimum is the largest step at an index below
    [size - 1] whose product with [t] is at most 10 (the first step if there
    is none), raised to the smaller of 10000 and the maximum if it is below
    that.  These two values are handed to [setSamplerateLimits], which
    applies those that are not zero: when neither is zero, the samplerate
    spin box gets the calls [setMinimum( min )] and [setMaximum( max )] and
    ends with the minimum [min], the maximum [max] and a value between them;
    a value that is zero is not applied, and with both zero the dock stays as
    it is. *)
Theorem calculateSamplerateSteps_derives_range (t : Q) (d : HorizontalDock) :
  (samplerateSteps d = [] -> calculateSamplerateSteps t d = Some (tt, d))
  /\ (samplerateSteps d <> [] ->
      Sorted Qle (samplerateSteps d) ->
      exists mn mx lim mn' d',
        largest_step_where (samplerateSteps d)
          (fun i s => (1 <= i)%nat /\ s * t <= 1000 # 1) mx
        /\ largest_step_where (samplerateSteps d)
          (fun i s => (i < length (samplerateSteps d) - 1)%nat
                      /\ s * t <= 10 # 1) mn
        /\ (10000 # 1 < mx /\ lim = 10000 # 1
            \/ mx <= 10000 # 1 /\ lim = mx)
        /\ (mn < lim /\ mn' = lim \/ lim <= mn /\ mn' = mn)
        /\ calculateSamplerateSteps t d = setSamplerateLimits mn' mx d
        /\ calculateSamplerateSteps t d = Some (tt, d')
        /\ d' = with_limits mn' mx d
        /\ samplerateSiSpinBox d'
           = limits_sb mn' mx (samplerateSiSpinBox d)
        /\ trace d' = trace d ++ limits_calls mn' mx
        /\ (~ mn' == 0 -> ~ mx == 0 ->
            trace d' = trace d ++ [ECall Samplerate (setMinimum mn');
                                   ECall Samplerate (setMaximum mx)]
            /\ sb_minimum (samplerateSiSpinBox d') == mn'
            /\ sb_maximum (samplerateSiSpinBox d') = mx
            /\ mn' <= sb_value (samplerateSiSpinBox d')
            /\ sb_value (samplerateSiSpinBox d') <= mx)
        /\ (mn' == 0 -> mx == 0 -> d' = d)).
Proof.
  split.
  - intro E. rewrite calculateSamplerateSteps_eq, E. reflexivity.
  - intros Hne Hs.
    set (mn := fst (calc_loop (samplerateSteps d) t)).
    set (mx := snd (calc_loop (samplerateSteps d) t)).
    exists mn, mx, (qMin (10000 # 1) mx), (qMax mn (qMin (10000 # 1) mx)),
      (with_limits (qMax mn (qMin (10000 # 1) mx)) mx d).
    assert (Hle : qMax mn (qMin (10000 # 1) mx) <= mx).
    { apply qMax_lub; [apply calc_loop_ordered; exact Hs | apply qMin_le_r]. }
    assert (Heq : calculateSamplerateSteps t d
                  = setSamplerateLimits (qMax mn (qMin (10000 # 1) mx)) mx d).
    { unfold calculateSamplerateSteps, bind, gets. unfold mn, mx.
      destruct (samplerateSteps d) as [|s l] eqn:E; [congruence|].
      cbn [length Nat.eqb]. rewrite calc_limits_eq. reflexivity. }
    split; [apply calc_loop_max; exact Hs|].
    split; [apply calc_loop_min; exact Hs|].
    split.
    { unfold qMin. destruct (dlt _ _) eqn:E.
      - left. apply dlt_iff in E. split; [exact E | reflexivity].
      - right. apply dlt_false_iff in E. split; [exact E | reflexivity]. }
    split.
    { unfold qMax. destruct (dlt _ _) eqn:E.
      - left. apply dlt_iff in E. split; [exact E | reflexivity].
      - right. apply dlt_false_iff in E. split; [exact E | reflexivity]. }
    split; [exact Heq|].
    split; [rewrite Heq; apply setSamplerateLimits_eq|].
    split; [reflexivity|]. split; [reflexivity|]. split; [reflexivity|].
    split.
    + intros Hmn Hmx. cbn [with_limits trace samplerateSiSpinBox].
      rewrite (limits_calls_both _ _ Hmn Hmx). split; [reflexivity|].
      apply limits_sb_both; assumption.
    + apply with_limits_none.
Qed.

(** The witness of the amended C2: the sample rates at the timebase 1 ms
    give the range from 10000 to 1000000, and the spin box takes it. *)
Lemma calculateSamplerateSteps_derives_range_witness :
  exists d',
    calculateSamplerateSteps (1 # 1000)
      (set_samplerateSteps Sample.rates Sample.dock) = Some (tt, d')
    /\ sb_minimum (samplerateSiSpinBox d') == 10000 # 1
    /\ sb_maximum (samplerateSiSpinBox d') = 1000000 # 1.
Proof.
  destruct (calculateSamplerateSteps_derives_range (1 # 1000)
              (set_samplerateSteps Sample.rates Sample.dock)) as [_ H].
  destruct H as (mn & mx & lim & mn' & d' & _ & _ & _ & _ & _ & E & _);
    [discriminate | repeat constructor; discriminate |].
  exists d'. split; [exact E|].
  assert (E2 : calculateSamplerateSteps (1 # 1000)
      (set_samplerateSteps Sample.rates Sample.dock)
      = Some (tt, with_limits (10000 # 1) (1000000 # 1)
          (set_samplerateSteps Sample.rates Sample.dock))).
  { vm_compute. reflexivity. }
  rewrite E2 in E. injection E as <-.
  split; vm_compute; reflexivity.
Defined.

(** ** The timebase grid *)

Lemma vNorm_nonpositive (t : Q) : t <= 0 -> vNorm t = t / 0.
Proof.
  intro H. unfold vNorm, decade.
  assert (E : dlt 0 t = false) by (apply dlt_false_iff; exact H).
  rewrite E. reflexivity.
Qed.

Lemma grid_value_nonpositive (t : Q) : t <= 0 -> grid_value t = None.
Proof.
  intro H. unfold grid_value. rewrite (vNorm_nonpositive t H).
  assert (E : dle 1 (t / 0) = false).
  { apply dle_false_iff. unfold Qdiv. change (/ 0) with 0.
    rewrite Qmult_0_r. reflexivity. }
  unfold find_step, steps_1_2_5_10.
  cbn [length Nat.sub seq find nth Nat.add]. rewrite E. cbn [andb].
  assert (E2 : dle (2 # 1) (t / 0) = false).
  { apply dle_false_iff. unfold Qdiv. change (/ 0) with 0.
    rewrite Qmult_0_r. reflexivity. }
  assert (E5 : dle (5 # 1) (t / 0) = false).
  { apply dle_false_iff. unfold Qdiv. change (/ 0) with 0.
    rewrite Qmult_0_r. reflexivity. }
  rewrite E2, E5. reflexivity.
Qed.

(** X5.  A timebase that is zero or negative matches no step: [setTimebase]
    makes no call on the timebase spin box and returns the value the spin
    box already has; it still recalculates the samplerate limits from the
    timebase given. *)
Theorem setTimebase_nonpositive (t : Q) (d : HorizontalDock) :
  timebaseSteps d = steps_1_2_5_10 ->
  t <= 0 ->
  exists d',
    setTimebase t d = Some (sb_value (timebaseSiSpinBox d), d')
    /\ timebaseSiSpinBox d' = timebaseSiSpinBox d
    /\ calculateSamplerateSteps t d = Some (tt, d').
Proof.
  intros Hsteps Ht. rewrite setTimebase_eq, calculateSamplerateSteps_eq.
  unfold stepped, stepped_calls. rewrite Hsteps.
  pose proof (grid_value_nonpositive t Ht) as G. unfold grid_value in G.
  destruct (find_step steps_1_2_5_10 (vNorm t)); [discriminate|].
  rewrite app_nil_r. fold (after_calc t d).
  exists (after_calc t d).
  split; [rewrite <- Hsteps; destruct d; reflexivity|].
  split; [apply after_calc_timebaseSiSpinBox | reflexivity].
Qed.

(** The witness of X5: the timebase -1 on the sample dock. *)
Lemma setTimebase_nonpositive_witness :
  exists d',
    setTimebase (-1 # 1) Sample.dock
    = Some (sb_value (timebaseSiSpinBox Sample.dock), d')
    /\ timebaseSiSpinBox d' = timebaseSiSpinBox Sample.dock.
Proof.
  destruct (setTimebase_nonpositive (-1 # 1) Sample.dock)
    as (d' & E & H & _).
  - reflexivity.
  - discriminate.
  - exists d'. split; [exact E | exact H].
Defined.

(** ** Signal blockers are scoped *)

Lemma keeps_flags_bind {A B} (m : M A) (k : A -> M B) :
  keeps_flags m -> (forall a, keeps_flags (k a)) -> keeps_flags (bind m k).
Proof.
  intros Hm Hk d r d'. unfold bind.
  destruct (m d) as [[a d1]|] eqn:E; [|discriminate].
  intro E2. rewrite (Hk a d1 r d' E2). apply (Hm d a d1 E).
Qed.

Lemma keeps_flags_ret {A} (a : A) : keeps_flags (ret a).
Proof. intros d r d' E. inversion E. reflexivity. Qed.

Lemma keeps_flags_deref (r : ScopeRef) : keeps_flags (deref r).
Proof. intros d x d' E. destruct r; inversion E; reflexivity. Qed.

Lemma limits_sb_blocked (mn mx : Q) (sb : SiSpinBox) :
  sb_blocked (limits_sb mn mx sb) = sb_blocked sb.
Proof. unfold limits_sb. destruct (to_bool mn), (to_bool mx); reflexivity. Qed.

Lemma after_calc_flags (t : Q) (d : HorizontalDock) :
  signal_flags (after_calc t d) = signal_flags d.
Proof.
  unfold after_calc, signal_flags. destruct (samplerateSteps d); [reflexivity|].
  cbn. rewrite limits_sb_blocked. reflexivity.
Qed.

Lemma keeps_flags_setSamplerate (v : Q) : keeps_flags (setSamplerate v).
Proof.
  intros d r d'. rewrite setSamplerate_eq. intro E. inversion E. reflexivity.
Qed.

Lemma keeps_flags_setTimebase (t : Q) : keeps_flags (setTimebase t).
Proof.
  intros d r d'. rewrite setTimebase_eq. intro E. inversion E.
  rewrite after_calc_flags. unfold signal_flags, stepped. cbn.
  destruct (find_step _ _); reflexivity.
Qed.

Lemma keeps_flags_setFormat (TY XY f : Z) : keeps_flags (setFormat TY XY f).
Proof.
  intros d r d'. rewrite setFormat_eq.
  destruct (_ && _); intro E; inversion E; reflexivity.
Qed.

Lemma keeps_flags_setCalfreq (v : Q) : keeps_flags (setCalfreq v).
Proof.
  intros d r d'. rewrite setCalfreq_eq. intro E. inversion E. reflexivity.
Qed.

(** X9.  The signal blockers of the setters are scoped: [setSamplerate]
    (whose blocker is moved from the timebase to the samplerate spin box),
    [setTimebase], [setFormat], [setCalfreq], [setSamplerateLimits],
    [calculateSamplerateSteps], [setSamplerateSteps] and [loadSettings]
    return with the [blockSignals] flag of every widget as they found it,
    and with the slots connected as before. *)
Theorem setters_restore_signal_flags (TY XY : Z) :
  (forall v, keeps_flags (setSamplerate v))
  /\ (forall t, keeps_flags (setTimebase t))
  /\ (forall f, keeps_flags (setFormat TY XY f))
  /\ (forall v, keeps_flags (setCalfreq v))
  /\ (forall mn mx, keeps_flags (setSamplerateLimits mn mx))
  /\ (forall t, keeps_flags (calculateSamplerateSteps t))
  /\ (forall mode steps, keeps_flags (setSamplerateSteps mode steps))
  /\ (forall r, keeps_flags (loadSettings TY XY r)).
Proof.
  split; [exact keeps_flags_setSamplerate|].
  split; [exact keeps_flags_setTimebase|].
  split; [exact (keeps_flags_setFormat TY XY)|].
  split; [exact keeps_flags_setCalfreq|].
  split.
  { intros mn mx d r d'. rewrite setSamplerateLimits_eq. intro E. inversion E.
    unfold signal_flags. cbn. rewrite limits_sb_blocked. reflexivity. }
  split.
  { intros t d r d'. rewrite calculateSamplerateSteps_eq. intro E.
    inversion E. apply (after_calc_flags t d). }
  split.
  { intros mode steps d r d'. destruct steps as [|s0 rest].
    - unfold setSamplerateSteps, bind, modify, block, samplerate_call.
      rewrite !spin_call_blocked by reflexivity. discriminate.
    - rewrite setSamplerateSteps_eq by discriminate. intro E. inversion E.
      rewrite after_calc_flags. reflexivity. }
  intro r. unfold loadSettings.
  repeat first
    [ apply keeps_flags_deref | apply keeps_flags_setSamplerate
    | apply keeps_flags_setTimebase | apply keeps_flags_setFormat
    | apply keeps_flags_setCalfreq | apply keeps_flags_ret
    | apply keeps_flags_bind; [|intro] ].
Qed.

(** The witness of X9: [setSamplerate] and [setSamplerateSteps] on the
    sample dock. *)
Lemma setters_restore_signal_flags_witness :
  (forall r d', setSamplerate (5 # 1) Sample.dock = Some (r, d') ->
                signal_flags d' = signal_flags Sample.dock)
  /\ (forall r d',
        setSamplerateSteps 1 Sample.rates Sample.dock = Some (r, d') ->
        signal_flags d' = signal_flags Sample.dock).
Proof.
  destruct (setters_restore_signal_flags Sample.TY Sample.XY)
    as (H1 & _ & _ & _ & _ & _ & H7 & _).
  split.
  - intros r d'. apply H1.
  - intros r d'. apply H7.
Defined.

(** ** Edits by the user *)

Lemma spin_call_fires (w : Spin) (slot : Q -> M unit) (c : SpinCall)
      (d : HorizontalDock) :
  connected d = true ->
  sb_blocked (spin w d) = false ->
  ~ sb_value (spin w d) == sb_value (sb_apply c (spin w d)) ->
  spin_call w slot c d
  = slot (sb_value (sb_apply c (spin w d))) (blocked_call w c d).
Proof.
  intros Hc Hb Hv. unfold spin_call, sb_fires. rewrite Hc, Hb.
  destruct (Qeq_bool _ _) eqn:E; [|reflexivity].
  apply Qeq_bool_iff in E. contradiction.
Qed.

Lemma spin_call_same_value (w : Spin) (slot : Q -> M unit) (c : SpinCall)
      (d : HorizontalDock) :
  sb_value (spin w d) == sb_value (sb_apply c (spin w d)) ->
  spin_call w slot c d = Some (tt, blocked_call w c d).
Proof.
  intro Hv. unfold spin_call, sb_fires.
  apply Qeq_bool_iff in Hv. rewrite Hv. cbn [negb].
  rewrite !andb_false_r. reflexivity.
Qed.

(** X10.  Once the slots are connected, a change of the value of a spin box
    whose signals are not blocked (an edit by the user) reaches the
    settings object: the new value of the spin box, which is the value
    entered moved into its range, is stored in the matching field and
    emitted with the matching signal.  Setting the value the spin box
    already has runs no slot. *)
Theorem user_edit_reaches_settings (d : HorizontalDock) (v : Q) :
  connected d = true ->
  (sb_blocked (samplerateSiSpinBox d) = false ->
   ~ sb_value (samplerateSiSpinBox d)
     == sb_value (sb_setValue v (samplerateSiSpinBox d)) ->
   exists d',
     samplerate_call (setValue v) d = Some (tt, d')
     /\ samplerateSiSpinBox d' = sb_setValue v (samplerateSiSpinBox d)
     /\ samplerate (scope d') = sb_value (samplerateSiSpinBox d')
     /\ emitted d'
        = emitted d ++ [samplerateChanged (sb_value (samplerateSiSpinBox d'))])
  /\ (sb_blocked (timebaseSiSpinBox d) = false ->
      ~ sb_value (timebaseSiSpinBox d)
        == sb_value (sb_setValue v (timebaseSiSpinBox d)) ->
      exists d',
        timebase_call (setValue v) d = Some (tt, d')
        /\ timebaseSiSpinBox d' = sb_setValue v (timebaseSiSpinBox d)
        /\ timebase (scope d') = sb_value (timebaseSiSpinBox d')
        /\ emitted d'
           = emitted d ++ [timebaseChanged (sb_value (timebaseSiSpinBox d'))])
  /\ (sb_blocked (calfreqSiSpinBox d) = false ->
      ~ sb_value (calfreqSiSpinBox d)
        == sb_value (sb_setValue v (calfreqSiSpinBox d)) ->
      exists d',
        calfreq_call (setValue v) d = Some (tt, d')
        /\ calfreqSiSpinBox d' = sb_setValue v (calfreqSiSpinBox d)
        /\ calfreq (scope d') = sb_value (calfreqSiSpinBox d')
        /\ emitted d'
           = emitted d ++ [calfreqChanged (sb_value (calfreqSiSpinBox d'))])
  /\ (forall w slot,
        sb_value (spin w d) == sb_value (sb_setValue v (spin w d)) ->
        exists d',
          spin_call w slot (setValue v) d = Some (tt, d')
          /\ scope d' = scope d
          /\ emitted d' = emitted d).
Proof.
  intro Hc. unfold emitted. repeat split.
  - intros Hb Hv. unfold samplerate_call.
    rewrite (spin_call_fires Samplerate _ (setValue v) d Hc Hb Hv).
    rewrite samplerateSelected_eq. eexists. split; [reflexivity|].
    cbn. rewrite <- !app_assoc, !signals_of_app. cbn.
    rewrite ?app_nil_r. repeat split; reflexivity.
  - intros Hb Hv. unfold timebase_call.
    rewrite (spin_call_fires Timebase _ (setValue v) d Hc Hb Hv).
    rewrite timebaseSelected_eq. eexists. split; [reflexivity|].
    cbn [add_trace scope trace timebaseSiSpinBox].
    rewrite after_calc_scope, after_calc_trace, after_calc_timebaseSiSpinBox.
    cbn. rewrite <- !app_assoc, !signals_of_app.
    match goal with
    | |- context [signals_of (calc_calls ?l ?t)] =>
        destruct (calc_calls_widget_only l t) as [_ ->]
    end.
    cbn. rewrite ?app_nil_r. repeat split; reflexivity.
  - intros Hb Hv. unfold calfreq_call.
    rewrite (spin_call_fires Calfreq _ (setValue v) d Hc Hb Hv).
    rewrite calfreqSelected_eq. eexists. split; [reflexivity|].
    cbn. rewrite <- !app_assoc, !signals_of_app. cbn.
    rewrite ?app_nil_r. repeat split; reflexivity.
  - intros w slot Hv. rewrite (spin_call_same_value w slot (setValue v) d Hv).
    eexists. split; [reflexivity|]. unfold blocked_call.
    destruct w; cbn; rewrite signals_of_app; cbn; rewrite ?app_nil_r;
      split; reflexivity.
Qed.

(** The witness of X10: 2 ms entered into the timebase spin box of the
    sample dock, which shows 1 ms. *)
Lemma user_edit_reaches_settings_witness :
  exists d',
    timebase_call (setValue (2 # 1000)) Sample.dock = Some (tt, d')
    /\ timebase (scope d') = sb_value (timebaseSiSpinBox d').
Proof.
  destruct (user_edit_reaches_settings Sample.dock (2 # 1000))
    as (_ & H & _); [reflexivity|].
  destruct H as (d' & E & _ & S & _).
  - reflexivity.
  - vm_compute. discriminate.
  - exists d'. split; [exact E | exact S].
Defined.

(** ** The constructor, continued *)

Lemma addItems_items (l : list Z) (cb : QComboBox) :
  cb_items (fold_left (fun cb f => cb_addItem f cb) l cb) = cb_items cb ++ l.
Proof.
  revert cb. induction l as [|f l IH]; intro cb; cbn [fold_left].
  - rewrite app_nil_r. reflexivity.
  - rewrite IH. cbn [cb_addItem cb_items]. rewrite <- app_assoc. reflexivity.
Qed.

Lemma addItems_blocked (l : list Z) (cb : QComboBox) :
  cb_blocked (fold_left (fun cb f => cb_addItem f cb) l cb) = cb_blocked cb.
Proof.
  revert cb. induction l as [|f l IH]; intro cb; cbn [fold_left];
    [reflexivity|]. rewrite IH. reflexivity.
Qed.

Lemma addItems_index_kept (l : list Z) (cb : QComboBox) :
  cb_items cb <> [] ->
  cb_index (fold_left (fun cb f => cb_addItem f cb) l cb) = cb_index cb.
Proof.
  revert cb. induction l as [|f l IH]; intros cb H; cbn [fold_left];
    [reflexivity|].
  rewrite IH.
  - cbn [cb_addItem cb_index]. destruct (cb_items cb); [congruence|reflexivity].
  - cbn [cb_addItem cb_items]. destruct (cb_items cb); discriminate.
Qed.

Lemma addItems_index_new (l : list Z) :
  l <> [] ->
  cb_index (fold_left (fun cb f => cb_addItem f cb) l QComboBox_new) = 0%Z.
Proof.
  destruct l as [|f l]; [congruence|]. intros _. cbn [fold_left].
  rewrite addItems_index_kept; [reflexivity | discriminate].
Qed.

Lemma GraphFormatEnum_length (TY XY : Z) :
  length (GraphFormatEnum TY XY) = Z.to_nat (XY - TY + 1).
Proof. unfold GraphFormatEnum. rewrite length_map, length_seq. reflexivity. Qed.

Lemma constructor_parts (TY XY : Z) (new : SiSpinBox)
      (s : DsoSettingsScope) (cs : list Q) :
  cs <> [] ->
  exists d,
    constructor TY XY new s cs = Some d
    /\ scope d = s
    /\ samplerateSiSpinBox d
       = sb_setValue (samplerate s)
           (sb_setMaximum (100000000 # 1) (sb_setMinimum 1 new))
    /\ timebaseSiSpinBox d
       = stepped steps_1_2_5_10 (timebase s)
           (sb_setMaximum (maxTimebase s)
              (sb_setMaximum (1000 # 1)
                 (sb_setMinimum (1 # 1000000000)
                    (sb_setSteps steps_1_2_5_10 new))))
    /\ formatComboBox d
       = (let cb := fold_left (fun cb f => cb_addItem f cb)
                              (GraphFormatEnum TY XY) QComboBox_new in
          if (TY <=? format s)%Z && (format s <=? XY)%Z
          then cb_setCurrentIndex (format s) cb else cb)
    /\ samplerateSteps d = []
    /\ connected d = true
    /\ widget_only (trace d).
Proof.
  intro H.
  unfold constructor, constructor_body, loadSettings, samplerate_call,
    timebase_call, calfreq_call.
  rewrite (first_eq cs H), (last_eq cs H).
  unfold bind, gets, ret, modify, deref.
  run_members. rewrite setSamplerate_eq.
  run_members. rewrite setTimebase_eq.
  run_members. unfold after_calc. cbn [samplerateSteps].
  run_members. rewrite setFormat_eq.
  destruct ((TY <=? format s)%Z && (format s <=? XY)%Z);
    run_members; rewrite setCalfreq_eq;
    eexists; (split; [reflexivity|]);
    cbn [scope samplerateSiSpinBox timebaseSiSpinBox formatComboBox
         samplerateSteps connected trace];
    (repeat (split; [reflexivity|]));
    unfold widget_only; rewrite ?assigns_of_app, ?signals_of_app;
    unfold stepped_calls; destruct (find_step _ _); split; reflexivity.
Qed.

(** X11.  The constructor needs a non-empty list of calibration frequency
    steps ([first()] of an empty list is undefined).  Given one, it loads
    the settings into the widgets before it connects the slots: the
    settings object is left as it was, nothing is assigned to it and no
    signal of the dock is emitted; the slots end up connected and the list
    of samplerate steps empty. *)
Theorem constructor_loads_quietly (TY XY : Z) (new : SiSpinBox)
        (s : DsoSettingsScope) (calfreqSteps : list Q) :
  (calfreqSteps = [] -> constructor TY XY new s calfreqSteps = None)
  /\ (calfreqSteps <> [] ->
      exists d,
        constructor TY XY new s calfreqSteps = Some d
        /\ scope d = s
        /\ assigns_of (trace d) = []
        /\ emitted d = []
        /\ connected d = true
        /\ samplerateSteps d = []).
Proof.
  split.
  - intros ->. reflexivity.
  - intro H.
    destruct (constructor_parts TY XY new s calfreqSteps H)
      as (d & E & Hs & _ & _ & _ & Hr & Hc & Ha & He).
    exists d. unfold emitted. repeat split; assumption.
Qed.

(** The witness of X11: the sample dock. *)
Lemma constructor_loads_quietly_witness :
  exists d,
    constructor Sample.TY Sample.XY Sample.spin_new Sample.settings
                Sample.calfreqSteps = Some d
    /\ scope d = Sample.settings
    /\ emitted d = [].
Proof.
  destruct (constructor_loads_quietly Sample.TY Sample.XY Sample.spin_new
              Sample.settings Sample.calfreqSteps) as [_ H].
  destruct H as (d & E & Hs & _ & He & _); [discriminate|].
  exists d. repeat split; assumption.
Defined.

Lemma sb_setMaximum_value_le (m : Q) (sb : SiSpinBox) :
  sb_value (sb_setMaximum m sb) <= m.
Proof.
  rewrite <- (sb_setMaximum_maximum m sb) at 2.
  unfold sb_setMaximum. apply sb_setRange_value_in_range.
Qed.

Lemma sb_setMaximum_range_valid (m : Q) (sb : SiSpinBox) :
  sb_minimum (sb_setMaximum m sb) <= sb_maximum (sb_setMaximum m sb).
Proof.
  unfold sb_setMaximum.
  destruct (sb_setRange_value_in_range
              (if dlt (sb_minimum sb) m then sb_minimum sb else m) m sb)
    as [H1 H2].
  apply Qle_trans with (1 := H1). exact H2.
Qed.

Lemma sb_setValue_value_le (v : Q) (sb : SiSpinBox) :
  sb_minimum sb <= sb_maximum sb ->
  sb_value (sb_setValue v sb) <= sb_maximum sb.
Proof. intro H. cbn. apply sb_bound_in_range. exact H. Qed.

Lemma stepped_range (steps : list Q) (t : Q) (sb : SiSpinBox) :
  sb_minimum (stepped steps t sb) = sb_minimum sb
  /\ sb_maximum (stepped steps t sb) = sb_maximum sb.
Proof. unfold stepped. destruct (find_step _ _); split; reflexivity. Qed.

Lemma stepped_value_le (steps : list Q) (t : Q) (sb : SiSpinBox) :
  sb_minimum sb <= sb_maximum sb ->
  sb_value sb <= sb_maximum sb ->
  sb_value (stepped steps t sb) <= sb_maximum sb.
Proof.
  intros H1 H2. unfold stepped. destruct (find_step _ _); [|exact H2].
  apply sb_setValue_value_le. exact H1.
Qed.

(** X12.  After construction the widgets show the settings within their
    ranges: the samplerate spin box has the range from 1 to 1e8 and shows
    the samplerate of the settings if that lies in the range; the maximum of
    the timebase spin box is not the 1e3 set at first but the [maxTimebase]
    of the settings, which [loadSettings] puts there through
    [setSamplerate], and the timebase shown does not exceed it. *)
Theorem constructor_shows_settings (TY XY : Z) (new : SiSpinBox)
        (s : DsoSettingsScope) (calfreqSteps : list Q) :
  calfreqSteps <> [] ->
  exists d,
    constructor TY XY new s calfreqSteps = Some d
    /\ sb_minimum (samplerateSiSpinBox d) = 1
    /\ sb_maximum (samplerateSiSpinBox d) = 100000000 # 1
    /\ (1 <= samplerate s -> samplerate s <= 100000000 # 1 ->
        sb_value (samplerateSiSpinBox d) = samplerate s)
    /\ sb_maximum (timebaseSiSpinBox d) = maxTimebase s
    /\ sb_value (timebaseSiSpinBox d) <= maxTimebase s.
Proof.
  intro H.
  destruct (constructor_parts TY XY new s calfreqSteps H)
    as (d & E & _ & Hsr & Htb & _).
  exists d. split; [exact E|]. rewrite Hsr, Htb.
  split; [reflexivity|]. split; [reflexivity|].
  split; [intros L U; apply sb_bound_id; assumption|].
  destruct (stepped_range steps_1_2_5_10 (timebase s)
              (sb_setMaximum (maxTimebase s)
                 (sb_setMaximum (1000 # 1)
                    (sb_setMinimum (1 # 1000000000)
                       (sb_setSteps steps_1_2_5_10 new))))) as [_ Hmax].
  split; [rewrite Hmax; apply sb_setMaximum_maximum|].
  rewrite <- (sb_setMaximum_maximum (maxTimebase s)
                (sb_setMaximum (1000 # 1)
                   (sb_setMinimum (1 # 1000000000)
                      (sb_setSteps steps_1_2_5_10 new)))) at 2.
  apply stepped_value_le.
  - apply sb_setMaximum_range_valid.
  - rewrite sb_setMaximum_maximum. apply sb_setMaximum_value_le.
Qed.

(** The witness of X12: the sample dock, with [maxTimebase] 0.1 s. *)
Lemma constructor_shows_settings_witness :
  exists d,
    constructor Sample.TY Sample.XY Sample.spin_new Sample.settings
                Sample.calfreqSteps = Some d
    /\ sb_maximum (timebaseSiSpinBox d) = 1 # 10.
Proof.
  destruct (constructor_shows_settings Sample.TY Sample.XY Sample.spin_new
              Sample.settings Sample.calfreqSteps)
    as (d & E & _ & _ & _ & H & _); [discriminate|].
  exists d. split; [exact E | exact H].
Defined.

(** X13.  With the display formats numbered from 0, the constructor fills
    the combo box with one item per format and selects the format of the
    settings; a format outside the range is rejected by [setFormat], so the
    first item, which became current when it was added, stays selected. *)
Theorem constructor_selects_format (XY : Z) (new : SiSpinBox)
        (s : DsoSettingsScope) (calfreqSteps : list Q) :
  calfreqSteps <> [] ->
  (0 <= XY)%Z ->
  exists d,
    constructor 0 XY new s calfreqSteps = Some d
    /\ cb_items (formatComboBox d) = GraphFormatEnum 0 XY
    /\ Z.of_nat (length (cb_items (formatComboBox d))) = (XY + 1)%Z
    /\ cb_index (formatComboBox d)
       = if (0 <=? format s)%Z && (format s <=? XY)%Z
         then format s else 0%Z.
Proof.
  intros H HXY.
  destruct (constructor_parts 0 XY new s calfreqSteps H)
    as (d & E & _ & _ & _ & Hfc & _).
  exists d. split; [exact E|]. rewrite Hfc. cbn zeta.
  assert (Hlen : Z.of_nat (length (GraphFormatEnum 0 XY)) = (XY + 1)%Z).
  { rewrite GraphFormatEnum_length. rewrite Z2Nat.id by lia. lia. }
  assert (Hne : GraphFormatEnum 0 XY <> []).
  { intro C. rewrite C in Hlen. cbn in Hlen. lia. }
  destruct ((0 <=? format s)%Z && (format s <=? XY)%Z) eqn:G.
  - cbn [cb_setCurrentIndex cb_items cb_index].
    rewrite addItems_items. cbn [QComboBox_new cb_items app].
    split; [reflexivity|]. split; [exact Hlen|].
    rewrite Hlen. apply andb_true_iff in G. destruct G as [G1 G2].
    rewrite G1. apply Z.leb_le in G2.
    assert (G3 : (format s <? XY + 1)%Z = true) by (apply Z.ltb_lt; lia).
    rewrite G3. reflexivity.
  - rewrite addItems_items. cbn [QComboBox_new cb_items app].
    split; [reflexivity|]. split; [exact Hlen|].
    apply addItems_index_new. exact Hne.
Qed.

(** The witness of X13: the sample dock, with the formats 0 and 1. *)
Lemma constructor_selects_format_witness :
  exists d,
    constructor 0 1 Sample.spin_new Sample.settings Sample.calfreqSteps
    = Some d
    /\ cb_items (formatComboBox d) = [0; 1]%Z
    /\ cb_index (formatComboBox d) = 0%Z.
Proof.
  destruct (constructor_selects_format 1 Sample.spin_new Sample.settings
              Sample.calfreqSteps)
    as (d & E & Hi & _ & Hx).
  - discriminate.
  - lia.
  - exists d. split; [exact E|]. split; [exact Hi | exact Hx].
Defined.

(** ** [setSamplerate] *)

(** X14.  [setSamplerate] also caps the timebase: it sets the maximum of
    the timebase spin box to the [maxTimebase] of the settings, which pulls
    the timebase shown down to it, without running the timebase slot; the
    [timebase] of the settings stays as it was.  The samplerate spin box
    keeps its range and takes the value given, moved into that range. *)
Theorem setSamplerate_caps_timebase (v : Q) (d : HorizontalDock) :
  exists d',
    setSamplerate v d = Some (sb_value (samplerateSiSpinBox d'), d')
    /\ sb_maximum (timebaseSiSpinBox d') = maxTimebase (scope d)
    /\ sb_value (timebaseSiSpinBox d') <= maxTimebase (scope d)
    /\ scope d' = scope d
    /\ sb_minimum (samplerateSiSpinBox d') = sb_minimum (samplerateSiSpinBox d)
    /\ sb_maximum (samplerateSiSpinBox d') = sb_maximum (samplerateSiSpinBox d)
    /\ sb_value (samplerateSiSpinBox d')
       = sb_bound (sb_minimum (samplerateSiSpinBox d))
                  (sb_maximum (samplerateSiSpinBox d)) v.
Proof.
  rewrite setSamplerate_eq.
  match goal with |- context [Some (_, ?x)] => exists x end.
  cbn [samplerateSiSpinBox timebaseSiSpinBox scope].
  split; [reflexivity|].
  split; [apply sb_setMaximum_maximum|].
  split; [apply sb_setMaximum_value_le|].
  repeat split; reflexivity.
Qed.

(** X15.  The limits hold for later calls: after
    [setSamplerateLimits( minimum, maximum )] with
    [0 < minimum <= maximum], every [setSamplerate] returns a value between
    [minimum] and [maximum]. *)
Theorem setSamplerate_within_limits (minimum maximum v : Q)
        (d : HorizontalDock) :
  0 < minimum ->
  minimum <= maximum ->
  exists d1 r d2,
    setSamplerateLimits minimum maximum d = Some (tt, d1)
    /\ setSamplerate v d1 = Some (r, d2)
    /\ minimum <= r
    /\ r <= maximum
    /\ (minimum <= v -> v <= maximum -> r = v).
Proof.
  intros Hpos Hle.
  assert (Hmax : 0 < maximum) by (apply Qlt_le_trans with minimum; assumption).
  rewrite setSamplerateLimits_eq. eexists. eexists. eexists.
  split; [reflexivity|]. rewrite setSamplerate_eq.
  split; [reflexivity|].
  cbn [with_limits samplerateSiSpinBox sb_setValue sb_value].
  unfold limits_sb.
  rewrite (positive_to_bool _ Hpos), (positive_to_bool _ Hmax).
  set (sb := sb_setMaximum maximum
               (sb_setMinimum minimum (samplerateSiSpinBox d))).
  assert (Hmn : sb_minimum sb == minimum).
  { unfold sb. apply sb_setMaximum_minimum_keeps. exact Hle. }
  assert (Hmx : sb_maximum sb = maximum).
  { unfold sb. apply sb_setMaximum_maximum. }
  destruct (sb_bound_in_range (sb_minimum sb) (sb_maximum sb) v) as [L U].
  { rewrite Hmn, Hmx. exact Hle. }
  split; [rewrite <- Hmn; exact L|].
  split; [rewrite <- Hmx; exact U|].
  intros Lv Uv. apply sb_bound_id.
  - rewrite Hmn. exact Lv.
  - rewrite Hmx. exact Uv.
Qed.

(** The witness of X15: the limits 100 and 1000 on the sample dock. *)
Lemma setSamplerate_within_limits_witness :
  exists d1 r d2,
    setSamplerateLimits (100 # 1) (1000 # 1) Sample.dock = Some (tt, d1)
    /\ setSamplerate (5 # 1) d1 = Some (r, d2)
    /\ 100 # 1 <= r
    /\ r <= 1000 # 1.
Proof.
  destruct (setSamplerate_within_limits (100 # 1) (1000 # 1) (5 # 1)
              Sample.dock)
    as (d1 & r & d2 & E1 & E2 & L & U & _).
  - reflexivity.
  - discriminate.
  - exists d1, r, d2. repeat split; assumption.
Defined.

(** ** An empty list of samplerate steps *)

(** X16.  [setSamplerateSteps] needs a non-empty list: with an empty one it
    reaches [steps.first()], whose behaviour is undefined, on every dock;
    with a non-empty one it returns, with the list stored. *)
Theorem setSamplerateSteps_needs_steps (mode : Z) (steps : list Q)
        (d : HorizontalDock) :
  (steps = [] -> setSamplerateSteps mode steps d = None)
  /\ (steps <> [] ->
      exists d',
        setSamplerateSteps mode steps d = Some (tt, d')
        /\ samplerateSteps d' = steps).
Proof.
  split.
  - intros ->.
    unfold setSamplerateSteps, bind, modify, block, samplerate_call.
    rewrite !spin_call_blocked by reflexivity. reflexivity.
  - intro H. rewrite (setSamplerateSteps_eq mode steps d H).
    eexists. split; [reflexivity|].
    unfold after_calc. cbn [with_steps samplerateSteps].
    destruct steps; [congruence | reflexivity].
Qed.

(** The witness of X16: the empty list and the sample rates on the sample
    dock. *)
Lemma setSamplerateSteps_needs_steps_witness :
  setSamplerateSteps 1 [] Sample.dock = None
  /\ exists d',
      setSamplerateSteps 1 Sample.rates Sample.dock = Some (tt, d')
      /\ samplerateSteps d' = Sample.rates.
Proof.
  split.
  - apply (setSamplerateSteps_needs_steps 1 [] Sample.dock). reflexivity.
  - apply (setSamplerateSteps_needs_steps 1 Sample.rates Sample.dock).
    discriminate.
Defined.

(** ** The calibration frequency steps *)

(** C7, as stated, fails.  With the calibration frequency steps 1000 and
    50 the constructor calls [setMinimum( 1000 )] and then
    [setMaximum( 50 )], which takes the minimum down with it: the spin box
    ends with minimum, maximum and value 50, so its minimum is not the
    first element.  With no steps at all the constructor reaches [first()]
    of an empty list. *)
Lemma constructor_calfreq_first_above_last :
  (exists d,
      constructor Sample.TY Sample.XY Sample.spin_new Sample.settings
                  [1000 # 1; 50 # 1] = Some d
      /\ sb_minimum (calfreqSiSpinBox d) = 50 # 1
      /\ sb_maximum (calfreqSiSpinBox d) = 50 # 1
      /\ sb_value (calfreqSiSpinBox d) = 50 # 1
      /\ ~ sb_minimum (calfreqSiSpinBox d) == 1000 # 1)
  /\ constructor Sample.TY Sample.XY Sample.spin_new Sample.settings []
     = None.
Proof.
  split; [|reflexivity].
  eexists. split; [vm_compute; reflexivity|].
  split; [reflexivity|]. split; [reflexivity|]. split; [reflexivity|].
  cbn. intro H. discriminate H.
Qed.

(** C7, amended.  The constructor is undefined for an empty list of
    calibration frequency steps.  For a non-empty list it binds the
    calibration-frequency spin box to the steps: the spin box has this step
    list, its maximum is the last element, and its minimum is the first
    element if that is not above the last; if the first element is above
    the last, the minimum is the last element too.  Thereafter
    [setCalfreq f] sets the value of the spin box to [f] and returns the
    value the spin box then has: [f] itself if it lies in the range, a value
    in the range otherwise. *)
Theorem constructor_binds_calfreq (TY XY : Z) (new : SiSpinBox)
        (s : DsoSettingsScope) (calfreqSteps : list Q) :
  (calfreqSteps = [] -> constructor TY XY new s calfreqSteps = None)
  /\ (calfreqSteps <> [] ->
      exists d,
        constructor TY XY new s calfreqSteps = Some d
        /\ sb_steps (calfreqSiSpinBox d) = calfreqSteps
        /\ sb_maximum (calfreqSiSpinBox d) = List.last calfreqSteps 0
        /\ (hd 0 calfreqSteps <= List.last calfreqSteps 0 ->
            sb_minimum (calfreqSiSpinBox d) == hd 0 calfreqSteps)
        /\ (List.last calfreqSteps 0 < hd 0 calfreqSteps ->
            sb_minimum (calfreqSiSpinBox d) = List.last calfreqSteps 0)
        /\ sb_minimum (calfreqSiSpinBox d) <= sb_maximum (calfreqSiSpinBox d)
        /\ forall f, exists d',
            setCalfreq f d = Some (sb_value (calfreqSiSpinBox d'), d')
            /\ calfreqSiSpinBox d' = sb_setValue f (calfreqSiSpinBox d)
            /\ sb_minimum (calfreqSiSpinBox d)
               <= sb_value (calfreqSiSpinBox d')
               <= sb_maximum (calfreqSiSpinBox d)
            /\ (sb_minimum (calfreqSiSpinBox d) <= f ->
                f <= sb_maximum (calfreqSiSpinBox d) ->
                sb_value (calfreqSiSpinBox d') = f)).
Proof.
  split; [intros ->; reflexivity|].
  intro Hne.
  destruct (constructor_calfreq TY XY new s calfreqSteps Hne)
    as (d & E & Hcf & _).
  exists d. split; [exact E|].
  set (lo := hd 0 calfreqSteps) in *.
  set (hi := List.last calfreqSteps 0) in *.
  set (sb := sb_setMinimum lo (sb_setSteps calfreqSteps new)) in *.
  assert (Hmax : sb_maximum (calfreqSiSpinBox d) = hi).
  { rewrite Hcf. cbn [sb_setValue sb_maximum]. apply sb_setMaximum_maximum. }
  assert (Hmin : sb_minimum (calfreqSiSpinBox d)
                 = if dlt lo hi then lo else hi).
  { rewrite Hcf. reflexivity. }
  assert (Hval : sb_minimum (calfreqSiSpinBox d)
                 <= sb_maximum (calfreqSiSpinBox d)).
  { rewrite Hcf. cbn [sb_setValue sb_minimum sb_maximum].
    apply sb_setMaximum_range_valid. }
  split; [rewrite Hcf; reflexivity|].
  split; [exact Hmax|].
  split.
  { intro Hle. rewrite Hmin. destruct (dlt lo hi) eqn:D; [reflexivity|].
    apply dlt_false_iff in D. apply Qle_antisym; assumption. }
  split.
  { intro Hlt. rewrite Hmin.
    assert (D : dlt lo hi = false)
      by (apply dlt_false_iff, Qlt_le_weak; exact Hlt).
    rewrite D. reflexivity. }
  split; [exact Hval|].
  intro f. rewrite setCalfreq_eq.
  match goal with |- context [Some (_, ?x)] => exists x end.
  split; [reflexivity|].
  cbn [calfreqSiSpinBox]. split; [reflexivity|].
  cbn [sb_setValue sb_value]. split.
  - apply sb_bound_in_range. exact Hval.
  - intros L U. apply sb_bound_id; assumption.
Qed.

(** The witness of the amended C7: the sample dock. *)
Lemma constructor_binds_calfreq_witness :
  exists d,
    constructor Sample.TY Sample.XY Sample.spin_new Sample.settings
                Sample.calfreqSteps = Some d
    /\ sb_steps (calfreqSiSpinBox d) = Sample.calfreqSteps
    /\ sb_minimum (calfreqSiSpinBox d) == 50 # 1
    /\ sb_maximum (calfreqSiSpinBox d) = 1000 # 1.
Proof.
  destruct (constructor_binds_calfreq Sample.TY Sample.XY Sample.spin_new
              Sample.settings Sample.calfreqSteps) as [_ H].
  destruct H as (d & E & S & Hmax & Hmin & _); [discriminate|].
  exists d. split; [exact E|]. split; [exact S|].
  split; [apply Hmin; vm_compute; discriminate | exact Hmax].
Defined.

(** ** Binding the samplerate spin box to the steps of the device *)





(** ** Input out of range *)



